(** * ObterUN: latest Bling NFe numbers, their maximum, zero padded

    A shallow embedding of [ObterUN.py].  The script asks the Bling API for the
    most recent inbound (ENTRADA) and outbound (SAIDA) NFe, compares the two
    numbers as integers and prints the larger one padded to six digits.

    Layout of the development:
    - [Py]        the fragment of Python the script relies on: dynamically typed
                  values, truthiness, [int()], subscripting, [dict.get],
                  the ["0{w}d"] format, exceptions;
    - [Eff]       the effects of the script: a trace of observable events and a
                  result that is either a value or a raised exception;
    - [ObterUN]   the classes and functions of the source, in source order;
    - [Vocabulary] what the statements need beyond the program;
    - the properties, one section per function. *)

From Stdlib Require Import ZArith NArith List String Ascii Bool Lia Permutation.
From Stdlib Require Import DecimalString DecimalPos DecimalN SpecFloat.
Import ListNotations.

Set Warnings "-register-all".

Local Open Scope string_scope.
Local Open Scope Z_scope.

(* ------------------------------------------------------------------------- *)
(** * The Python fragment *)

Module Py.

(** A [str] is modelled by [string]; each [ascii] is the code point of one
    character, so the model covers the strings whose code points are below
    256.  Integers are unbounded ([Z]); the interpreter's optional cap on the
    number of digits accepted by [int()] is not modelled. *)

(** Values that can reach the script: what [json] decoding produces, which is
    also what the authorization module hands over. *)
Inductive value : Type :=
| VNone
| VBool (b : bool)
| VInt (z : Z)
| VFloat (f : spec_float)
| VStr (s : string)
| VList (l : list value)
| VDict (d : list (string * value)).

(** The exception classes the script can meet, all of them subclasses of
    [Exception]; what is not one ([SystemExit], [KeyboardInterrupt]) is not
    modelled.  [RequestException] stands for
    [requests.exceptions.RequestException] and all its subclasses; the
    [JSONDecodeError] raised by [Response.json] is one of them.  An exception
    is its class: the text [str(e)] gives is not modelled. *)
Inductive requests_error : Type :=
| ConnectionError | Timeout | TooManyRedirects | HTTPError | RequestsJSONDecodeError.

Inductive exn : Type :=
| ValueError
| TypeError
| AttributeError
| KeyError
| IndexError
| OverflowError
| JSONDecodeError
| RequestException (k : requests_error)
| OtherException (name : string).

Inductive result (A : Type) : Type :=
| Return (a : A)
| Raise (e : exn).
Arguments Return {A} a.
Arguments Raise {A} e.

(** [isinstance(e, requests.exceptions.RequestException)] *)
Definition is_RequestException (e : exn) : bool :=
  match e with RequestException _ => true | _ => false end.

(** [isinstance(e, json.JSONDecodeError)]: the class itself and the
    [requests] subclass that inherits from it. *)
Definition is_JSONDecodeError (e : exn) : bool :=
  match e with
  | JSONDecodeError | RequestException RequestsJSONDecodeError => true
  | _ => false
  end.

(** [isinstance(e, ValueError)]: [json.JSONDecodeError] derives from it. *)
Definition is_ValueError (e : exn) : bool :=
  match e with
  | ValueError | JSONDecodeError | RequestException RequestsJSONDecodeError => true
  | _ => false
  end.

(** ** Truthiness and the short-circuit [and] *)

Definition is_empty (s : string) : bool :=
  match s with EmptyString => true | String _ _ => false end.

Definition float_is_zero (f : spec_float) : bool :=
  match f with S754_zero _ => true | _ => false end.

Definition truthy (v : value) : bool :=
  match v with
  | VNone => false
  | VBool b => b
  | VInt z => negb (z =? 0)
  | VFloat f => negb (float_is_zero f)
  | VStr s => negb (is_empty s)
  | VList l => match l with [] => false | _ :: _ => true end
  | VDict d => match d with [] => false | _ :: _ => true end
  end.

(** [a and b], both operands already evaluated: the first one when it is
    falsy, the second one otherwise. *)
Definition py_and (a b : value) : value := if truthy a then b else a.

(** ** Dictionaries, subscripting *)

Fixpoint lookup (k : string) (d : list (string * value)) : option value :=
  match d with
  | [] => None
  | (k', v) :: d' => if String.eqb k k' then Some v else lookup k d'
  end.

(** [obj.get(key)]: only a dictionary has the method. *)
Definition py_get (obj : value) (key : string) : result value :=
  match obj with
  | VDict d => Return (match lookup key d with Some v => v | None => VNone end)
  | _ => Raise AttributeError
  end.

(** [obj[key]] for a string key. *)
Definition py_getitem_str (obj : value) (key : string) : result value :=
  match obj with
  | VDict d => match lookup key d with Some v => Return v | None => Raise KeyError end
  | _ => Raise TypeError
  end.

(** [obj[0]].  The keys of a decoded JSON object are strings, so the integer
    key is never found in a dictionary. *)
Definition py_getitem_0 (obj : value) : result value :=
  match obj with
  | VList (x :: _) => Return x
  | VList [] => Raise IndexError
  | VStr (String c _) => Return (VStr (String c EmptyString))
  | VStr EmptyString => Raise IndexError
  | VDict _ => Raise KeyError
  | _ => Raise TypeError
  end.

(** ** [int(str)] *)

(** [Py_ISSPACE]: the six ASCII white space characters. *)
Definition Py_ISSPACE (c : ascii) : bool :=
  let n := nat_of_ascii c in
  (((9 <=? n) && (n <=? 13)) || (n =? 32))%nat.

(** [Py_UNICODE_ISSPACE] on the code points below 256. *)
Definition Py_UNICODE_ISSPACE (c : ascii) : bool :=
  let n := nat_of_ascii c in
  (((9 <=? n) && (n <=? 13)) || ((28 <=? n) && (n <=? 32)) ||
   (n =? 133) || (n =? 160))%nat.

Definition digit_value (c : ascii) : option Z :=
  let n := nat_of_ascii c in
  if ((48 <=? n) && (n <=? 57))%nat then Some (Z.of_nat n - 48) else None.

Fixpoint is_ascii_str (s : string) : bool :=
  match s with
  | EmptyString => true
  | String c r => (nat_of_ascii c <? 128)%nat && is_ascii_str r
  end.

(** The loop of [_PyUnicode_TransformDecimalAndSpaceToASCII]: white space
    becomes a blank; no code point in 127..255 is a decimal digit, so any
    other one becomes ["?"] and ends the buffer. *)
Fixpoint transform_loop (s : string) : string :=
  match s with
  | EmptyString => EmptyString
  | String c r =>
      if (nat_of_ascii c <? 127)%nat then String c (transform_loop r)
      else if Py_UNICODE_ISSPACE c then String " " (transform_loop r)
      else String "?" EmptyString
  end.

Definition transform_decimal_and_space (s : string) : string :=
  if is_ascii_str s then s else transform_loop s.

Fixpoint skip_spaces (s : string) : string :=
  match s with
  | String c r => if Py_ISSPACE c then skip_spaces r else s
  | EmptyString => s
  end.

Definition take_sign (s : string) : Z * string :=
  match s with
  | String "+" r => (1, r)
  | String "-" r => (-1, r)
  | _ => (1, s)
  end.

(** The scan over digits and underscores: a second underscore in a row is an
    error, and so is an underscore at the end of the run. *)
Fixpoint scan_digits (prev_underscore : bool) (acc : Z) (s : string)
  : option (Z * string) :=
  match s with
  | EmptyString => if prev_underscore then None else Some (acc, s)
  | String c r =>
      match digit_value c with
      | Some d => scan_digits false (acc * 10 + d) r
      | None =>
          if Ascii.eqb c "_" then
            if prev_underscore then None else scan_digits true acc r
          else if prev_underscore then None else Some (acc, s)
      end
  end.

(** The run may not start with an underscore and holds at least one digit. *)
Definition parse_digits (s : string) : option (Z * string) :=
  match s with
  | EmptyString => None
  | String c r =>
      match digit_value c with
      | Some d => scan_digits false d r
      | None => None
      end
  end.

(** [PyLong_FromString] in base 10, with the check that the whole buffer
    was consumed. *)
Definition PyLong_FromString (s : string) : option Z :=
  let (sign, s2) := take_sign (skip_spaces s) in
  match parse_digits s2 with
  | None => None
  | Some (z, s3) =>
      match skip_spaces s3 with
      | EmptyString => Some (sign * z)
      | String _ _ => None
      end
  end.

Definition int_of_str (s : string) : option Z :=
  PyLong_FromString (transform_decimal_and_space s).

(** ** [int(float)]: truncation toward zero *)

Definition int_of_float (f : spec_float) : result Z :=
  match f with
  | S754_zero _ => Return 0
  | S754_infinity _ => Raise OverflowError
  | S754_nan => Raise ValueError
  | S754_finite s m e =>
      let mag := if 0 <=? e then Z.shiftl (Z.pos m) e else Z.shiftr (Z.pos m) (- e) in
      Return (if s then - mag else mag)
  end.

(** [int(v)] *)
Definition py_int (v : value) : result Z :=
  match v with
  | VInt z => Return z
  | VBool b => Return (if b then 1 else 0)
  | VFloat f => int_of_float f
  | VStr s => match int_of_str s with Some z => Return z | None => Raise ValueError end
  | VNone | VList _ | VDict _ => Raise TypeError
  end.

(** ** Decimal output *)

Definition digits (n : N) : string := NilEmpty.string_of_uint (N.to_uint n).

Fixpoint zeros (n : nat) : string :=
  match n with O => EmptyString | S n' => String "0" (zeros n') end.

Definition sign_prefix (z : Z) : string := if z <? 0 then "-" else "".

(** [str(z)] *)
Definition str_of_int (z : Z) : string := sign_prefix z ++ digits (Z.abs_N z).

(** [format(z, "0{w}d")]: fill character ["0"], which implies the alignment
    ["="]: the padding goes between the sign and the digits. *)
Definition format_0d (w : nat) (z : Z) : string :=
  let sg := sign_prefix z in
  let ds := digits (Z.abs_N z) in
  sg ++ zeros (w - String.length sg - String.length ds) ++ ds.

(** [s.zfill(w)]: zeros on the left up to the width [w], after a leading sign
    when there is one. *)
Definition zfill (w : nat) (s : string) : string :=
  let pad := zeros (w - String.length s) in
  match s with
  | String "+" r => String "+" (pad ++ r)
  | String "-" r => String "-" (pad ++ r)
  | _ => pad ++ s
  end.

End Py.

(* ------------------------------------------------------------------------- *)
(** * Effects: results, exceptions and a trace of events *)

Module Eff.
Import Py.

Section WithEvent.
Context {E : Type}.

(** A computation yields a value or raises, and leaves the events it
    emitted, oldest first. *)
Definition M (A : Type) : Type := (result A * list E)%type.

Definition ret {A} (a : A) : M A := (Return a, []).
Definition raise {A} (e : exn) : M A := (Raise e, []).
Definition lift {A} (r : result A) : M A := (r, []).
Definition emit (ev : E) : M unit := (Return tt, [ev]).

Definition bind {A B} (m : M A) (f : A -> M B) : M B :=
  match m with
  | (Return a, t) => let (r, t') := f a in (r, (t ++ t')%list)
  | (Raise e, t) => (Raise e, t)
  end.

(** One [except C as e: h] clause: the class test and the handler. *)
Definition handler (A : Type) : Type := ((exn -> bool) * (exn -> M A))%type.

Fixpoint select {A} (e : exn) (hs : list (handler A)) : option (exn -> M A) :=
  match hs with
  | [] => None
  | (test, h) :: hs' => if test e then Some h else select e hs'
  end.

(** [try: m  except ...]: the first clause whose class matches handles the
    exception; with no match it propagates. *)
Definition try_except {A} (m : M A) (hs : list (handler A)) : M A :=
  match m with
  | (Return a, t) => (Return a, t)
  | (Raise e, t) =>
      match select e hs with
      | Some h => let (r, t') := h e in (r, (t ++ t')%list)
      | None => (Raise e, t)
      end
  end.

Definition outcome {A} (m : M A) : result A := fst m.
Definition trace {A} (m : M A) : list E := snd m.
End WithEvent.

Arguments M E A : clear implicits.

Declare Scope eff_scope.
Delimit Scope eff_scope with eff.
Notation "x <- m ;; k" := (bind m (fun x => k))
  (at level 61, m at next level, right associativity) : eff_scope.
Notation "' p <- m ;; k" := (bind m (fun p => k))
  (at level 61, p pattern, m at next level, right associativity) : eff_scope.
Notation "m ;; k" := (bind m (fun _ => k))
  (at level 61, right associativity) : eff_scope.

End Eff.

(* ------------------------------------------------------------------------- *)
(** * The script *)

Module ObterUN.
Import Py Eff.
Local Open Scope eff_scope.

(** ** [NFeTipo] and [Config] *)

Inductive NFeTipo : Type := ENTRADA | SAIDA.

Definition NFeTipo_value (tipo : NFeTipo) : Z :=
  match tipo with ENTRADA => 0 | SAIDA => 1 end.

Definition NFeTipo_eqb (a b : NFeTipo) : bool :=
  match a, b with
  | ENTRADA, ENTRADA | SAIDA, SAIDA => true
  | _, _ => false
  end.

Module Config.
Definition API_BASE_URL : string := "https://api.bling.com.br/Api/v3".
Definition MAX_WORKERS : nat := 2.
Definition NFE_DIGITS : nat := 6.
End Config.

(** ** What the script does to the outside *)

Record Request : Type := mkRequest {
  req_method : string;
  req_url : string;
  req_headers : list (string * string);
  req_params : list (string * Z)
}.

(** The label the status lines carry: inbound for [ENTRADA], outbound
    otherwise. *)
Inductive tipo_desc : Type := DescInbound | DescOutbound.

(** The lines the script prints, one constructor per [print] of the source,
    in source order.  An interpolated value is kept as it is; an
    interpolated exception is kept as its class, so a line stands for all the
    texts [str(e)] can give for that class. *)
Inductive message : Type :=
| MsgNumber (d : tipo_desc) (numero : value)      (* get_nfe_info, number found *)
| MsgNotFound (d : tipo_desc)                     (* get_nfe_info, no record *)
| MsgRequestError (tipo : NFeTipo) (e : exn)      (* except RequestException *)
| MsgDecodeError (tipo : NFeTipo) (e : exn)       (* except JSONDecodeError *)
| MsgCompareError (e : exn)                       (* compare_nfe_numbers, except *)
| MsgGettingCode                                  (* main, before the code *)
| MsgGettingToken                                 (* main, before the token *)
| MsgMaximum (max_numero : value)                 (* main, the result *)
| MsgUndetermined                                 (* main, no result *)
| MsgRunFailed (e : exn).                         (* main, except Exception *)

Inductive event : Type :=
| EvGet (r : Request)
| EvPrint (m : message).

Definition print (m : message) : M event unit := emit (EvPrint m).

(** ** The transport

    What one [requests.get] call comes back with: a failure of the transport,
    or a response with its status code and its body.  A body is either not
    JSON or decodes to a value; [legacy] tells which class an old [requests]
    raises on a body that is not JSON.  On some bodies the decoder gives up
    with an exception of its own, which [Response.json] lets through:
    [RecursionError] on deep nesting, [ValueError] on an integer literal
    longer than the interpreter accepts. *)
Inductive body : Type :=
| NotJSON (legacy : bool)
| JSON (v : value)
| DecoderError (e : exn).

Record Response : Type := mkResponse {
  status_code : Z;
  content : body
}.

Inductive reply : Type :=
| Failed (k : requests_error)
| Responded (r : Response).

(** [response.raise_for_status()]: client and server errors raise. *)
Definition raise_for_status (r : Response) : result unit :=
  if (400 <=? status_code r) && (status_code r <? 600)
  then Raise (RequestException HTTPError)
  else Return tt.

(** [response.json()] *)
Definition json (r : Response) : result value :=
  match content r with
  | JSON v => Return v
  | NotJSON true => Raise JSONDecodeError
  | NotJSON false => Raise (RequestException RequestsJSONDecodeError)
  | DecoderError e => Raise e
  end.

Section Client.
(** The remote service, as seen through [requests.get]. *)
Variable server : Request -> reply.

Definition requests_get (url : string) (headers : list (string * string))
    (params : list (string * Z)) : M event Response :=
  let rq := mkRequest "GET" url headers params in
  emit (EvGet rq) ;;
  match server rq with
  | Failed k => raise (RequestException k)
  | Responded r => ret r
  end.

(** ** [BlingNFeClient] *)

Record BlingNFeClient : Type := mkClient {
  access_token : string;
  headers : list (string * string)
}.

Definition BlingNFeClient_init (access_token : string) : BlingNFeClient :=
  mkClient access_token
    [("Accept", "application/json");
     ("Authorization", "Bearer " ++ access_token)].

Definition desc_of (tipo : NFeTipo) : tipo_desc :=
  if NFeTipo_eqb tipo ENTRADA then DescInbound else DescOutbound.

Definition get_nfe_info (self : BlingNFeClient) (tipo : NFeTipo) : M event value :=
  let url := Config.API_BASE_URL ++ "/nfe" in
  let params := [("pagina", 1); ("limite", 1); ("tipo", NFeTipo_value tipo)] in
  try_except
    (response <- requests_get url (headers self) params ;;
     lift (raise_for_status response) ;;
     response_data <- lift (json response) ;;
     data <- lift (py_get response_data "data") ;;
     cond <- (if truthy data then lift (py_getitem_str response_data "data")
              else ret data) ;;
     if truthy cond then
       data' <- lift (py_getitem_str response_data "data") ;;
       first <- lift (py_getitem_0 data') ;;
       numero <- lift (py_get first "numero") ;;
       print (MsgNumber (desc_of tipo) numero) ;;
       ret numero
     else
       print (MsgNotFound (desc_of tipo)) ;;
       ret VNone)
    [ (is_RequestException,
       fun e => print (MsgRequestError tipo e) ;; ret VNone);
      (is_JSONDecodeError,
       fun e => print (MsgDecodeError tipo e) ;; ret VNone) ].

(** ** The thread pool

    A submitted call is a slot that is pending until a worker has run it to
    the end; its outcome, value or exception, then stays in the slot.  A
    future is the index of its slot.  Which pending call finishes next is
    not decided by the script: [order] lists the slots in the order the
    workers finish them (entries naming no pending slot are skipped), and
    every list is allowed, which covers any number of workers.  A call is
    atomic with respect to the trace. *)
Inductive slot : Type :=
| Pending (job : M event value)
| Finished (r : result value).

Record executor : Type := mkExecutor {
  max_workers : nat;
  slots : list slot;
  order : list nat
}.

Definition submit (ex : executor) (job : M event value) : executor * nat :=
  (mkExecutor (max_workers ex) (slots ex ++ [Pending job])%list (order ex),
   List.length (slots ex)).

Fixpoint set_nth (i : nat) (s : slot) (l : list slot) : list slot :=
  match l, i with
  | [], _ => []
  | _ :: l', O => s :: l'
  | x :: l', S i' => x :: set_nth i' s l'
  end.

(** A worker finishes the call of slot [i]. *)
Definition finish (i : nat) (l : list slot) : M event (list slot) :=
  match nth_error l i with
  | Some (Pending (r, t)) => (Return (set_nth i (Finished r) l), t)
  | _ => ret l
  end.

(** The main thread blocks on future [i] while the workers go on. *)
Fixpoint wait_on (i : nat) (ord : list nat) (l : list slot)
  : M event (list slot * list nat) :=
  match nth_error l i with
  | Some (Pending _) =>
      match ord with
      | [] => l' <- finish i l ;; ret (l', [])
      | j :: ord' => l' <- finish j l ;; wait_on i ord' l'
      end
  | _ => ret (l, ord)
  end.

(** [future.result()]: the value of the call, or its exception again. *)
Definition future_result (ex : executor) (i : nat) : M event (result value * executor) :=
  '(l, ord) <- wait_on i (order ex) (slots ex) ;;
  match nth_error l i with
  | Some (Finished r) => ret (r, mkExecutor (max_workers ex) l ord)
  | _ => ret (Raise (OtherException "InvalidStateError"),
              mkExecutor (max_workers ex) l ord)
  end.

Fixpoint finish_all (n : nat) (l : list slot) : M event (list slot) :=
  match n with
  | O => ret l
  | S n' => l' <- finish_all n' l ;; finish n' l'
  end.

Fixpoint drain (ord : list nat) (l : list slot) : M event (list slot) :=
  match ord with
  | [] => finish_all (List.length l) l
  | j :: ord' => l' <- finish j l ;; drain ord' l'
  end.

(** Leaving the [with] block: [shutdown(wait=True)], every call still
    pending is run to its end, whether the block returned or raised. *)
Definition with_executor {A} (workers : nat) (ord : list nat)
    (block : executor -> M event (result A * executor)) : M event A :=
  '(r, ex) <- block (mkExecutor workers [] ord) ;;
  drain (order ex) (slots ex) ;;
  lift r.

Definition get_multiple_nfe_info (self : BlingNFeClient) (ord : list nat)
  : M event (value * value) :=
  with_executor Config.MAX_WORKERS ord (fun executor =>
    let (executor, future_entrada) := submit executor (get_nfe_info self ENTRADA) in
    let (executor, future_saida) := submit executor (get_nfe_info self SAIDA) in
    '(r1, executor) <- future_result executor future_entrada ;;
    match r1 with
    | Raise e => ret (Raise e, executor)
    | Return numero_entrada =>
        '(r2, executor) <- future_result executor future_saida ;;
        match r2 with
        | Raise e => ret (Raise e, executor)
        | Return numero_saida => ret (Return (numero_entrada, numero_saida), executor)
        end
    end).
End Client.

(** ** [NFEProcessor] *)

Definition compare_nfe_numbers (numero_entrada numero_saida : value) : M event value :=
  if negb (truthy (py_and numero_entrada numero_saida)) then ret VNone
  else
    try_except
      (entrada_int <- lift (py_int numero_entrada) ;;
       saida_int <- lift (py_int numero_saida) ;;
       let max_numero := Z.max entrada_int saida_int in
       ret (VStr (format_0d Config.NFE_DIGITS max_numero)))
      [ (is_ValueError,
         fun e => print (MsgCompareError e) ;; ret VNone) ].

(** ** [main] *)

(** The [auth] module is not part of the program text: [BlingAuth] is taken
    as what its two methods come back with.  [main] below is the function
    from its [try] on, given the object the constructor built; [main_call]
    is the whole function, constructor call included. *)
Record BlingAuth : Type := mkAuth {
  get_authorization_code : result value;
  get_access_token : value -> result value
}.

Section Main.
Variable server : Request -> reply.
(** [str()] of a value that is not a [str], as f-string interpolation
    applies it to the token. *)
Variable py_str : value -> string.

Definition interpolate (v : value) : string :=
  match v with VStr s => s | _ => py_str v end.

Definition main (auth : BlingAuth) (ord : list nat) : M event unit :=
  try_except
    (print MsgGettingCode ;;
     auth_code <- lift (get_authorization_code auth) ;;
     (if negb (truthy auth_code) then raise ValueError else ret tt) ;;
     print MsgGettingToken ;;
     token_info <- lift (get_access_token auth auth_code) ;;
     access_token <- lift (py_get token_info "access_token") ;;
     (if negb (truthy access_token) then raise ValueError else ret tt) ;;
     let client := BlingNFeClient_init (interpolate access_token) in
     '(numero_entrada, numero_saida) <- get_multiple_nfe_info server client ord ;;
     max_numero <- compare_nfe_numbers numero_entrada numero_saida ;;
     if truthy max_numero then print (MsgMaximum max_numero)
     else print MsgUndetermined)
    [ (fun _ => true, fun e => print (MsgRunFailed e)) ].

(** [main()] as it is called: [BlingAuth()] comes first, outside the [try],
    so no clause handles what the constructor raises. *)
Definition main_call (BlingAuth_new : result BlingAuth) (ord : list nat) : M event unit :=
  auth <- lift BlingAuth_new ;;
  main auth ord.
End Main.

End ObterUN.

(* ------------------------------------------------------------------------- *)
(** * Vocabulary of the properties *)

Module Vocabulary.
Import Py Eff ObterUN.

(** Where the scan over digits stops: at the end, or before a character
    that is neither a digit nor an underscore. *)
Definition stops (r : string) : bool :=
  match r with
  | EmptyString => true
  | String c _ =>
      match digit_value c with
      | Some _ => false
      | None => negb (Ascii.eqb c "_")
      end
  end.

(** White space before and after, and the three ways to write the sign. *)
Fixpoint all_spaces (s : string) : bool :=
  match s with
  | EmptyString => true
  | String c r => Py_ISSPACE c && all_spaces r
  end.

Inductive sign : Type := NoSign | Plus | Minus.

Definition sign_str (sg : sign) : string :=
  match sg with NoSign => "" | Plus => "+" | Minus => "-" end.

Definition sign_val (sg : sign) : Z :=
  match sg with Minus => -1 | _ => 1 end.

Definition is_digit (c : ascii) : bool :=
  match digit_value c with Some _ => true | None => false end.

Fixpoint all_digits (s : string) : bool :=
  match s with
  | EmptyString => true
  | String c r => is_digit c && all_digits r
  end.

(** A group: a non-empty run of digits. *)
Definition group (g : string) : bool := negb (is_empty g) && all_digits g.

(** Groups written with one underscore between neighbours, and the same
    groups written without. *)
Fixpoint join_groups (g : string) (gs : list string) : string :=
  match gs with
  | [] => g
  | g' :: gs' => g ++ String "_" (join_groups g' gs')
  end.

Fixpoint concat_groups (g : string) (gs : list string) : string :=
  match gs with
  | [] => g
  | g' :: gs' => g ++ concat_groups g' gs'
  end.

(** The requests among the events of a trace, in order. *)
Fixpoint requests_of (t : list event) : list Request :=
  match t with
  | [] => []
  | EvGet r :: t' => r :: requests_of t'
  | EvPrint _ :: t' => requests_of t'
  end.

(** The lines printed, in order. *)
Fixpoint printed (t : list event) : list message :=
  match t with
  | [] => []
  | EvGet _ :: t' => printed t'
  | EvPrint m :: t' => m :: printed t'
  end.

(** The outcome a slot holds, or will hold once its call has run. *)
Definition slot_result (s : slot) : result value :=
  match s with
  | Pending job => outcome job
  | Finished r => r
  end.

(** The request [get_nfe_info] builds for a client and a category. *)
Definition request_of (self : BlingNFeClient) (tipo : NFeTipo) : Request :=
  mkRequest "GET" (Config.API_BASE_URL ++ "/nfe") (headers self)
    [("pagina", 1); ("limite", 1); ("tipo", NFeTipo_value tipo)].

(** A server that answers every request with one and the same reply. *)
Definition always (r : reply) : Request -> reply := fun _ => r.

Definition answer (status : Z) (b : body) : Request -> reply :=
  always (Responded (mkResponse status b)).

(** A server that tells the two categories apart by the [tipo] parameter. *)
Definition by_tipo (inbound outbound : reply) (rq : Request) : reply :=
  match req_params rq with
  | [_; _; (_, 0)] => inbound
  | _ => outbound
  end.

(** The expected envelope, with one record carrying the given [numero]. *)
Definition envelope (numero : value) : value :=
  VDict [("data", VList [VDict [("numero", numero)]])].

(** The events of the calls the pool has not run yet. *)
Definition pending_trace (l : list slot) : list event :=
  flat_map (fun s => match s with Pending job => trace job | Finished _ => [] end) l.

(** What a step of the pool keeps: nothing is lost from the traces, no
    slot appears or goes back to pending. *)
Definition keeps (l : list slot) (t : list event) (l' : list slot) : Prop :=
  Permutation (t ++ pending_trace l') (pending_trace l) /\
  List.length l' = List.length l /\
  (forall k job, nth_error l' k = Some (Pending job) -> nth_error l k = Some (Pending job)).

(** The authorization succeeds and hands over [token]: a truthy code, then
    a structure whose [access_token] is the truthy [token]. *)
Definition grants (auth : BlingAuth) (token : value) : Prop :=
  exists code token_info,
    get_authorization_code auth = Return code /\ truthy code = true /\
    get_access_token auth code = Return token_info /\
    py_get token_info "access_token" = Return token /\ truthy token = true.

End Vocabulary.

(* ------------------------------------------------------------------------- *)
(** * Properties *)

Import Py Eff ObterUN Vocabulary.

(** ** Strings and decimal output *)

Section Strings.

Lemma length_app (s t : string) :
  String.length (s ++ t) = (String.length s + String.length t)%nat.
Proof.
  induction s as [|c s IH]; simpl; [reflexivity | now rewrite IH].
Qed.

Lemma app_empty_r (s : string) : s ++ "" = s.
Proof.
  induction s as [|c s IH]; simpl; [reflexivity | now rewrite IH].
Qed.

Lemma app_assoc (s t u : string) : (s ++ t) ++ u = s ++ (t ++ u).
Proof.
  induction s as [|c s IH]; simpl; [reflexivity | now rewrite IH].
Qed.

(** A digit string is never empty and starts with neither sign. *)
Lemma digits_head (n : N) :
  exists c r, digits n = String c r /\ c <> "+"%char /\ c <> "-"%char.
Proof.
  unfold digits.
  assert (H : N.to_uint n <> Decimal.Nil).
  { destruct n as [|p]; simpl; [discriminate | apply DecimalPos.Unsigned.to_uint_nonnil]. }
  destruct (N.to_uint n); try congruence; simpl;
    eexists; eexists; (split; [reflexivity | split; discriminate]).
Qed.

Lemma sign_prefix_cases (z : Z) :
  (z < 0 /\ sign_prefix z = "-") \/ (0 <= z /\ sign_prefix z = "").
Proof.
  unfold sign_prefix. destruct (Z.ltb_spec z 0); [left | right]; split; auto.
Qed.

(** The format ["0{w}d"] is [zfill] of the plain decimal string. *)
Lemma format_0d_zfill (w : nat) (z : Z) :
  format_0d w z = zfill w (str_of_int z).
Proof.
  unfold format_0d, str_of_int.
  destruct (sign_prefix_cases z) as [[_ ->] | [_ ->]]; simpl.
  - do 3 f_equal. lia.
  - destruct (digits_head (Z.abs_N z)) as (c & r & E & Hp & Hm).
    rewrite Nat.sub_0_r, E. unfold zfill.
    destruct (Ascii.eqb_spec c "+"); [contradiction|].
    destruct (Ascii.eqb_spec c "-"); [contradiction|].
    destruct c as [[] [] [] [] [] [] [] []]; try reflexivity; congruence.
Qed.

(** The width is a minimum: a representation that already fills it is
    left alone. *)
Lemma format_0d_wide (w : nat) (z : Z) :
  (w <= String.length (str_of_int z))%nat -> format_0d w z = str_of_int z.
Proof.
  unfold format_0d, str_of_int. rewrite length_app. intros H.
  replace (w - String.length (sign_prefix z) - String.length (digits (Z.abs_N z)))%nat
    with 0%nat by lia.
  reflexivity.
Qed.

(** Below zero the sign comes first and the zeros follow it. *)
Lemma format_0d_negative (w : nat) (z : Z) :
  z < 0 ->
  format_0d w z =
    String "-" (zeros (w - 1 - String.length (digits (Z.abs_N z))) ++ digits (Z.abs_N z)).
Proof.
  intros H. unfold format_0d.
  destruct (sign_prefix_cases z) as [[_ ->] | [? _]]; [reflexivity | lia].
Qed.

Lemma format_0d_nonnegative (w : nat) (z : Z) :
  0 <= z ->
  format_0d w z =
    zeros (w - String.length (digits (Z.abs_N z))) ++ digits (Z.abs_N z).
Proof.
  intros H. unfold format_0d.
  destruct (sign_prefix_cases z) as [[? _] | [_ ->]]; [lia|].
  simpl. now rewrite Nat.sub_0_r.
Qed.

End Strings.

(** ** [int()] reads back what the format writes *)

Section ReadBack.

Lemma scan_digit (p : bool) (acc d : Z) (c : ascii) (r : string) :
  digit_value c = Some d ->
  scan_digits p acc (String c r) = scan_digits false (acc * 10 + d) r.
Proof. intros H. simpl. now rewrite H. Qed.

Lemma scan_stops (acc : Z) (r : string) :
  stops r = true -> scan_digits false acc r = Some (acc, r).
Proof.
  destruct r as [|c r]; simpl; [reflexivity|].
  destruct (digit_value c); [discriminate|].
  destruct (Ascii.eqb c "_"); [discriminate | reflexivity].
Qed.

Ltac digit_step d :=
  cbn [append NilEmpty.string_of_uint zeros];
  rewrite (scan_digit _ _ d) by reflexivity.

Lemma scan_uint_acc (d : Decimal.uint) : forall (acc : positive) (r : string),
  stops r = true ->
  scan_digits false (Z.pos acc) (NilEmpty.string_of_uint d ++ r)
    = Some (Z.pos (Pos.of_uint_acc d acc), r).
Proof.
  induction d; intros acc r Hr; cbn [Pos.of_uint_acc];
    [ simpl; now apply scan_stops
    | digit_step 0 | digit_step 1 | digit_step 2 | digit_step 3 | digit_step 4
    | digit_step 5 | digit_step 6 | digit_step 7 | digit_step 8 | digit_step 9 ];
    rewrite <- IHd by assumption; f_equal; lia.
Qed.

Lemma scan_uint (d : Decimal.uint) : forall r : string,
  stops r = true ->
  scan_digits false 0 (NilEmpty.string_of_uint d ++ r)
    = Some (Z.of_N (Pos.of_uint d), r).
Proof.
  induction d; intros r Hr; cbn [Pos.of_uint];
    [ simpl; now apply scan_stops
    | digit_step 0; now apply IHd
    | digit_step 1 | digit_step 2 | digit_step 3 | digit_step 4
    | digit_step 5 | digit_step 6 | digit_step 7 | digit_step 8 | digit_step 9 ];
    simpl Z.of_N; rewrite <- scan_uint_acc by assumption; reflexivity.
Qed.

Lemma scan_digits_of_N (n : N) (r : string) :
  stops r = true -> scan_digits false 0 (digits n ++ r) = Some (Z.of_N n, r).
Proof.
  intros Hr. unfold digits. rewrite scan_uint by assumption.
  change (Pos.of_uint (N.to_uint n)) with (N.of_uint (N.to_uint n)).
  now rewrite DecimalN.Unsigned.of_to.
Qed.

Lemma scan_zeros (k : nat) (s : string) :
  scan_digits false 0 (zeros k ++ s) = scan_digits false 0 s.
Proof.
  induction k as [|k IH]; [reflexivity|].
  simpl zeros. digit_step 0. exact IH.
Qed.

(** A non-empty run that starts with a digit is scanned from zero. *)
Lemma parse_digits_scan (c : ascii) (r : string) (d : Z) :
  digit_value c = Some d ->
  parse_digits (String c r) = scan_digits false 0 (String c r).
Proof. intros H. simpl. now rewrite H. Qed.

Lemma digit_not_space (c : ascii) (d : Z) :
  digit_value c = Some d -> Py_ISSPACE c = false.
Proof.
  unfold digit_value, Py_ISSPACE.
  destruct (Nat.leb_spec 48 (nat_of_ascii c)); [|discriminate].
  intros _.
  destruct (Nat.leb_spec (nat_of_ascii c) 13); [lia|].
  destruct (Nat.eqb_spec (nat_of_ascii c) 32); [lia|].
  now rewrite andb_false_r.
Qed.

Lemma digit_not_sign (c : ascii) (d : Z) (r : string) :
  digit_value c = Some d -> take_sign (String c r) = (1, String c r).
Proof.
  intros H.
  destruct (Ascii.eqb_spec c "+") as [->|Hp]; [discriminate H|].
  destruct (Ascii.eqb_spec c "-") as [->|Hm]; [discriminate H|].
  destruct c as [[] [] [] [] [] [] [] []]; try reflexivity; congruence.
Qed.

(** The padded digits start with a digit, whatever follows them. *)
Lemma padded_head (k : nat) (n : N) (t : string) :
  exists c r d, zeros k ++ digits n ++ t = String c r /\ digit_value c = Some d.
Proof.
  destruct k as [|k]; simpl.
  - destruct (digits_head n) as (c & r & E & _).
    revert E. unfold digits.
    destruct (N.to_uint n); simpl; intros [= <- <-];
      do 3 eexists; (split; [reflexivity | reflexivity]).
  - do 3 eexists; split; reflexivity.
Qed.

Lemma parse_digits_padded (k : nat) (n : N) (t : string) :
  stops t = true ->
  parse_digits (zeros k ++ digits n ++ t) = Some (Z.of_N n, t).
Proof.
  intros Ht. destruct (padded_head k n t) as (c & r & d & E & Hd).
  rewrite E, (parse_digits_scan _ _ _ Hd), <- E.
  rewrite scan_zeros. now apply scan_digits_of_N.
Qed.

Lemma skip_all_spaces (ws : string) :
  all_spaces ws = true -> skip_spaces ws = "".
Proof.
  induction ws as [|c ws IH]; simpl; [reflexivity|].
  destruct (Py_ISSPACE c); [exact IH | discriminate].
Qed.

Lemma skip_spaces_app (ws t : string) :
  all_spaces ws = true -> skip_spaces (ws ++ t) = skip_spaces t.
Proof.
  induction ws as [|c ws IH]; simpl; [reflexivity|].
  destruct (Py_ISSPACE c); [exact IH | discriminate].
Qed.

Lemma spaces_stop (ws : string) : all_spaces ws = true -> stops ws = true.
Proof.
  destruct ws as [|c ws]; simpl; [reflexivity|].
  unfold Py_ISSPACE, digit_value.
  destruct (Ascii.eqb_spec c "_") as [->|_]; [discriminate|].
  destruct (Nat.leb_spec 48 (nat_of_ascii c)); [|reflexivity].
  destruct (Nat.leb_spec (nat_of_ascii c) 13); [lia|].
  destruct (Nat.eqb_spec (nat_of_ascii c) 32); [lia|].
  now rewrite andb_false_r.
Qed.

Lemma skip_spaces_signed (sg : sign) (k : nat) (n : N) (t : string) :
  skip_spaces (sign_str sg ++ zeros k ++ digits n ++ t)
    = sign_str sg ++ zeros k ++ digits n ++ t.
Proof.
  destruct (padded_head k n t) as (c & r & d & E & Hd).
  destruct sg; try reflexivity.
  simpl sign_str. simpl append at 1 4. rewrite E. simpl.
  now rewrite (digit_not_space _ _ Hd).
Qed.

Lemma take_sign_signed (sg : sign) (k : nat) (n : N) (t : string) :
  take_sign (sign_str sg ++ zeros k ++ digits n ++ t)
    = (sign_val sg, zeros k ++ digits n ++ t).
Proof.
  destruct (padded_head k n t) as (c & r & d & E & Hd).
  destruct sg; try reflexivity.
  simpl sign_str. simpl append at 1. rewrite E. now apply digit_not_sign with d.
Qed.

(** The grammar of [int()] beyond plain digit strings: white space, then
    an optional sign, then digits with any number of leading zeros, then
    white space again. *)
Lemma PyLong_FromString_decorated (ws1 ws2 : string) (sg : sign) (k : nat) (n : N) :
  all_spaces ws1 = true -> all_spaces ws2 = true ->
  PyLong_FromString (ws1 ++ sign_str sg ++ zeros k ++ digits n ++ ws2)
    = Some (sign_val sg * Z.of_N n).
Proof.
  intros H1 H2. unfold PyLong_FromString.
  rewrite skip_spaces_app, skip_spaces_signed, take_sign_signed by assumption.
  rewrite parse_digits_padded by now apply spaces_stop.
  now rewrite skip_all_spaces.
Qed.

Lemma is_ascii_app (s t : string) :
  is_ascii_str (s ++ t) = is_ascii_str s && is_ascii_str t.
Proof.
  induction s as [|c s IH]; simpl; [reflexivity|].
  now rewrite IH, andb_assoc.
Qed.

Lemma is_ascii_zeros (k : nat) : is_ascii_str (zeros k) = true.
Proof. induction k; simpl; auto. Qed.

Lemma is_ascii_digits (n : N) : is_ascii_str (digits n) = true.
Proof.
  unfold digits. induction (N.to_uint n); simpl; auto.
Qed.

Lemma is_ascii_spaces (ws : string) :
  all_spaces ws = true -> is_ascii_str ws = true.
Proof.
  induction ws as [|c ws IH]; simpl; [reflexivity|].
  unfold Py_ISSPACE at 1. intros [Hc Hws]%andb_prop. rewrite (IH Hws), andb_true_r.
  apply Nat.ltb_lt.
  destruct (Nat.leb_spec (nat_of_ascii c) 13); [lia|].
  rewrite andb_false_r in Hc. apply Nat.eqb_eq in Hc. lia.
Qed.

Lemma is_ascii_sign (sg : sign) : is_ascii_str (sign_str sg) = true.
Proof. now destruct sg. Qed.

(** [int()] accepts the decorated forms. *)
Lemma int_of_str_decorated (ws1 ws2 : string) (sg : sign) (k : nat) (n : N) :
  all_spaces ws1 = true -> all_spaces ws2 = true ->
  int_of_str (ws1 ++ sign_str sg ++ zeros k ++ digits n ++ ws2)
    = Some (sign_val sg * Z.of_N n).
Proof.
  intros H1 H2. unfold int_of_str, transform_decimal_and_space.
  rewrite !is_ascii_app, is_ascii_zeros, is_ascii_digits, is_ascii_sign.
  rewrite !is_ascii_spaces by assumption.
  now apply PyLong_FromString_decorated.
Qed.

Lemma format_0d_shape (w : nat) (z : Z) :
  exists sg k,
    format_0d w z = sign_str sg ++ zeros k ++ digits (Z.abs_N z) /\
    sign_val sg * Z.of_N (Z.abs_N z) = z.
Proof.
  unfold format_0d.
  destruct (sign_prefix_cases z) as [[Hz ->] | [Hz ->]].
  - exists Minus; eexists; split; [reflexivity | simpl sign_val; lia].
  - exists NoSign; eexists; split; [reflexivity | simpl sign_val; lia].
Qed.

(** Whatever the width, the formatted number is read back as itself. *)
Lemma int_of_str_format_0d (w : nat) (z : Z) :
  int_of_str (format_0d w z) = Some z.
Proof.
  destruct (format_0d_shape w z) as (sg & k & -> & E).
  rewrite <- E at 2.
  rewrite <- (int_of_str_decorated "" "" sg k (Z.abs_N z)) by reflexivity.
  simpl append at 5. now rewrite app_empty_r.
Qed.

Lemma digit_value_range (c : ascii) (d : Z) :
  digit_value c = Some d -> 0 <= d <= 9.
Proof.
  unfold digit_value.
  destruct (Nat.leb_spec 48 (nat_of_ascii c)); [|discriminate].
  destruct (Nat.leb_spec (nat_of_ascii c) 57); [|discriminate].
  simpl. intros [= <-]. lia.
Qed.

(** A run of [k] characters cannot hold a number of more than [k] digits. *)
Lemma scan_digits_bound (s : string) : forall (p : bool) (acc v : Z) (r : string),
  0 <= acc -> scan_digits p acc s = Some (v, r) ->
  v < (acc + 1) * 10 ^ Z.of_nat (String.length s).
Proof.
  induction s as [|c s IH]; intros p acc v r Hacc; cbn [scan_digits String.length].
  - destruct p; [discriminate|]. intros [= <- _]. simpl. lia.
  - rewrite Nat2Z.inj_succ, Z.pow_succ_r by lia.
    assert (Hpow : 0 < 10 ^ Z.of_nat (String.length s)) by (apply Z.pow_pos_nonneg; lia).
    destruct (digit_value c) as [d|] eqn:Hd.
    + intros H. apply digit_value_range in Hd.
      apply IH in H; [nia | lia].
    + destruct (Ascii.eqb c "_").
      * destruct p; [discriminate|]. intros H. apply IH in H; [nia | lia].
      * destruct p; [discriminate|]. intros [= <- _]. nia.
Qed.

Lemma digits_length (n : N) (k : nat) :
  10 ^ Z.of_nat k <= Z.of_N n -> (k < String.length (digits n))%nat.
Proof.
  intros H.
  assert (B : Z.of_N n < (0 + 1) * 10 ^ Z.of_nat (String.length (digits n))).
  { apply scan_digits_bound with (p := false) (r := ""); [lia|].
    rewrite <- (app_empty_r (digits n)) at 1. now apply scan_digits_of_N. }
  destruct (Nat.lt_ge_cases k (String.length (digits n))) as [|Hle]; [assumption|].
  assert (10 ^ Z.of_nat (String.length (digits n)) <= 10 ^ Z.of_nat k)
    by (apply Z.pow_le_mono_r; lia).
  lia.
Qed.

End ReadBack.

(** ** Underscores between digits *)

Section Underscores.

Lemma group_head (g : string) :
  group g = true -> exists c r d, g = String c r /\ digit_value c = Some d /\ all_digits r = true.
Proof.
  destruct g as [|c r]; [discriminate|]. unfold group. cbn [is_empty negb andb all_digits].
  unfold is_digit. destruct (digit_value c) as [d|] eqn:Hd; [|discriminate]. intros H.
  exists c, r, d. repeat split; assumption.
Qed.

(** After a run of digits the scan has forgotten what came before it. *)
Lemma scan_all_digits (r : string) : forall (acc : Z),
  all_digits r = true ->
  exists acc', forall s, scan_digits false acc (r ++ s) = scan_digits false acc' s.
Proof.
  induction r as [|c r IH]; intros acc H.
  - now exists acc.
  - simpl in H. apply andb_prop in H as [Hc Hr]. unfold is_digit in Hc.
    destruct (digit_value c) as [d|] eqn:Hd; [|discriminate].
    destruct (IH (acc * 10 + d) Hr) as (acc' & E).
    exists acc'. intros s. simpl append. now rewrite (scan_digit _ _ d), E.
Qed.

(** An underscore in front of a group is skipped. *)
Lemma scan_underscore_group (g s : string) (acc : Z) :
  group g = true ->
  scan_digits false acc (String "_" (g ++ s)) = scan_digits false acc (g ++ s).
Proof.
  intros H. destruct (group_head g H) as (c & r & d & -> & Hd & _).
  simpl append. change (scan_digits false acc (String "_" (String c (r ++ s))))
    with (scan_digits true acc (String c (r ++ s))).
  now rewrite !(scan_digit _ _ d).
Qed.

Lemma scan_join_groups (gs : list string) : forall (g s : string) (acc : Z),
  group g = true -> forallb group gs = true ->
  scan_digits false acc (join_groups g gs ++ s)
    = scan_digits false acc (concat_groups g gs ++ s).
Proof.
  induction gs as [|g' gs IH]; intros g s acc Hg Hgs; [reflexivity|].
  simpl in Hgs. apply andb_prop in Hgs as [Hg' Hgs]. simpl.
  unfold group in Hg. apply andb_prop in Hg as [_ Hd].
  destruct (scan_all_digits g acc Hd) as (acc' & E).
  rewrite !app_assoc, !E. simpl append.
  destruct (group_head g' Hg') as (c & r & d & Eg & _ & _).
  assert (Hj : exists t, join_groups g' gs = g' ++ t).
  { destruct gs; simpl; [exists ""; now rewrite app_empty_r | eauto]. }
  destruct Hj as (t & Ht). rewrite Ht, app_assoc.
  rewrite scan_underscore_group by assumption.
  rewrite <- app_assoc, <- Ht. now apply IH.
Qed.

Lemma all_digits_ascii (s : string) : all_digits s = true -> is_ascii_str s = true.
Proof.
  induction s as [|c s IH]; simpl; [reflexivity|].
  intros [Hc Hs]%andb_prop. rewrite (IH Hs), andb_true_r.
  unfold is_digit, digit_value in Hc. apply Nat.ltb_lt.
  destruct (Nat.leb_spec 48 (nat_of_ascii c)); [|discriminate].
  destruct (Nat.leb_spec (nat_of_ascii c) 57); [lia | discriminate].
Qed.

Lemma all_digits_app (s t : string) :
  all_digits (s ++ t) = all_digits s && all_digits t.
Proof.
  induction s as [|c s IH]; simpl; [reflexivity | now rewrite IH, andb_assoc].
Qed.

Lemma group_all_digits (g : string) : group g = true -> all_digits g = true.
Proof. unfold group. now intros [_ H]%andb_prop. Qed.

Lemma concat_groups_group (gs : list string) : forall g : string,
  group g = true -> forallb group gs = true -> group (concat_groups g gs) = true.
Proof.
  induction gs as [|g' gs IH]; intros g Hg Hgs; [exact Hg|].
  simpl in Hgs. apply andb_prop in Hgs as [Hg' Hgs]. simpl.
  specialize (IH g' Hg' Hgs).
  destruct (group_head g Hg) as (c & r & d & -> & _ & _).
  unfold group. simpl is_empty. simpl negb. rewrite andb_true_l.
  rewrite all_digits_app, (group_all_digits _ Hg), (group_all_digits _ IH). reflexivity.
Qed.

Lemma join_groups_ascii (gs : list string) : forall g : string,
  group g = true -> forallb group gs = true -> is_ascii_str (join_groups g gs) = true.
Proof.
  induction gs as [|g' gs IH]; intros g Hg Hgs; simpl.
  - now apply all_digits_ascii, group_all_digits.
  - simpl in Hgs. apply andb_prop in Hgs as [Hg' Hgs].
    rewrite is_ascii_app, (all_digits_ascii _ (group_all_digits _ Hg)). simpl.
    now apply IH.
Qed.

Lemma join_groups_head (gs : list string) (g : string) :
  group g = true ->
  exists c r d, join_groups g gs = String c r /\ digit_value c = Some d.
Proof.
  intros Hg. destruct (group_head g Hg) as (c & r & d & -> & Hd & _).
  destruct gs; simpl; eauto.
Qed.

(** With a digit in front there is neither white space nor sign to take. *)
Lemma PyLong_FromString_digit_head (c : ascii) (r : string) (d : Z) :
  digit_value c = Some d ->
  PyLong_FromString (String c r)
    = match scan_digits false 0 (String c r) with
      | Some (z, s3) =>
          match skip_spaces s3 with
          | EmptyString => Some (1 * z)
          | String _ _ => None
          end
      | None => None
      end.
Proof.
  intros Hd. unfold PyLong_FromString.
  cbn [skip_spaces]. rewrite (digit_not_space _ _ Hd), (digit_not_sign _ _ _ Hd).
  now rewrite (parse_digits_scan _ _ _ Hd).
Qed.

(** A run of digits is read, and so is the same run with single
    underscores between its groups, as the same number. *)
Lemma int_of_str_underscores (g : string) (gs : list string) :
  group g = true -> forallb group gs = true ->
  exists z,
    int_of_str (concat_groups g gs) = Some z /\
    int_of_str (join_groups g gs) = Some z.
Proof.
  intros Hg Hgs.
  pose proof (concat_groups_group gs g Hg Hgs) as Hc.
  destruct (scan_all_digits _ 0 (group_all_digits _ Hc)) as (z & Ez).
  specialize (Ez ""). rewrite app_empty_r in Ez. cbn [scan_digits] in Ez.
  assert (Ej : scan_digits false 0 (join_groups g gs) = Some (z, "")).
  { rewrite <- (app_empty_r (join_groups g gs)), scan_join_groups by assumption.
    now rewrite app_empty_r. }
  exists z. unfold int_of_str, transform_decimal_and_space.
  rewrite (all_digits_ascii _ (group_all_digits _ Hc)), (join_groups_ascii gs g Hg Hgs).
  destruct (group_head _ Hc) as (c & r & d & E & Hd & _).
  destruct (join_groups_head gs g Hg) as (c' & r' & d' & E' & Hd').
  split.
  - rewrite E, (PyLong_FromString_digit_head _ _ _ Hd), <- E, Ez. simpl. f_equal. now destruct z.
  - rewrite E', (PyLong_FromString_digit_head _ _ _ Hd'), <- E', Ej. simpl. f_equal. now destruct z.
Qed.

End Underscores.


(** ** [NFEProcessor.compare_nfe_numbers] *)

Section CompareNumbers.

(** Two strings that [int()] reads: no event, and the padded maximum. *)
Lemma compare_parsed (a b : string) (x y : Z) :
  int_of_str a = Some x -> int_of_str b = Some y ->
  compare_nfe_numbers (VStr a) (VStr b)
    = (Return (VStr (format_0d Config.NFE_DIGITS (Z.max x y))), []).
Proof.
  intros Ha Hb.
  destruct a as [|ca a]; [discriminate Ha|].
  destruct b as [|cb b]; [discriminate Hb|].
  unfold compare_nfe_numbers, py_and. cbn [truthy is_empty negb].
  unfold py_int. rewrite Ha, Hb. reflexivity.
Qed.

(** A falsy operand on either side: [None], and nothing is parsed. *)
Lemma compare_falsy_left (a b : value) :
  truthy a = false -> compare_nfe_numbers a b = (Return VNone, []).
Proof.
  intros H. unfold compare_nfe_numbers, py_and. now rewrite H, H.
Qed.

Lemma compare_falsy_right (a b : value) :
  truthy b = false -> compare_nfe_numbers a b = (Return VNone, []).
Proof.
  intros H. unfold compare_nfe_numbers, py_and.
  destruct (truthy a) eqn:Ha; [now rewrite H | now rewrite Ha].
Qed.

(** C1: for two present inputs that both parse as integers,
    [compare_nfe_numbers] returns the decimal string of the larger parsed
    value, filled with zeros on the left up to the width 6; the comparison
    is on the numbers, so ["5"] against ["10"] gives ["000010"].  The
    returned string reads back as that maximum, and for a maximum that is
    not negative the fill is a plain run of zeros in front of the digits. *)
Theorem compare_nfe_numbers_padded_maximum :
  (forall (a b : string) (x y : Z),
      int_of_str a = Some x -> int_of_str b = Some y ->
      exists s,
        compare_nfe_numbers (VStr a) (VStr b) = (Return (VStr s), []) /\
        s = zfill 6 (str_of_int (Z.max x y)) /\
        int_of_str s = Some (Z.max x y) /\
        (0 <= Z.max x y ->
         s = zeros (6 - String.length (str_of_int (Z.max x y)))
               ++ str_of_int (Z.max x y)))
  /\ compare_nfe_numbers (VStr "5") (VStr "10") = (Return (VStr "000010"), []).
Proof.
  split; [|reflexivity].
  intros a b x y Ha Hb. exists (format_0d 6 (Z.max x y)).
  split; [now apply compare_parsed|].
  split; [apply format_0d_zfill|].
  split; [apply int_of_str_format_0d|].
  intros Hm. rewrite format_0d_nonnegative by assumption.
  unfold str_of_int. destruct (sign_prefix_cases (Z.max x y)) as [[? _] | [_ ->]]; [lia|].
  reflexivity.
Qed.

Lemma compare_nfe_numbers_padded_maximum_witness :
  int_of_str "000123" = Some 123 /\ int_of_str "000087" = Some 87 /\
  exists s,
    compare_nfe_numbers (VStr "000123") (VStr "000087") = (Return (VStr s), []) /\
    s = "000123".
Proof.
  split; [reflexivity|]. split; [reflexivity|].
  destruct (proj1 compare_nfe_numbers_padded_maximum "000123" "000087" 123 87
              eq_refl eq_refl) as (s & E & Hs & _).
  exists s. split; [exact E | exact Hs].
Defined.

(** C3: with an absent operand on either side the result is absent,
    whatever the other operand is. *)
Theorem compare_nfe_numbers_absent_operand :
  forall x : value,
    compare_nfe_numbers VNone x = (Return VNone, []) /\
    compare_nfe_numbers x VNone = (Return VNone, []).
Proof.
  intros x. split; [now apply compare_falsy_left | now apply compare_falsy_right].
Qed.

(** C4: two present strings of which at least one is not read by [int()]:
    the result is absent and nothing is raised; ["abc"] against ["10"] is
    such a pair. *)
Theorem compare_nfe_numbers_malformed_operand :
  (forall a b : string,
      int_of_str a = None \/ int_of_str b = None ->
      outcome (compare_nfe_numbers (VStr a) (VStr b)) = Return VNone)
  /\ outcome (compare_nfe_numbers (VStr "abc") (VStr "10")) = Return VNone.
Proof.
  split; [|reflexivity].
  intros a b H. unfold compare_nfe_numbers, py_and.
  destruct a as [|ca a]; [reflexivity|].
  destruct b as [|cb b]; [reflexivity|].
  cbn [truthy is_empty negb]. unfold py_int.
  destruct (int_of_str (String ca a)) as [x|]; [|reflexivity].
  destruct H as [H|H]; [discriminate|]. now rewrite H.
Qed.

Lemma compare_nfe_numbers_malformed_operand_witness :
  (int_of_str "12a" = None \/ int_of_str "7" = None) /\
  outcome (compare_nfe_numbers (VStr "12a") (VStr "7")) = Return VNone.
Proof.
  split; [left; reflexivity|].
  apply (proj1 compare_nfe_numbers_malformed_operand). left; reflexivity.
Defined.

(** C5: when the decimal representation of the maximum is longer than the
    width 6, it is returned whole, with no padding and no truncation; this
    is the case of every maximum from one million on. *)
Theorem compare_nfe_numbers_width_is_minimum :
  forall (a b : string) (x y : Z),
    int_of_str a = Some x -> int_of_str b = Some y ->
    ((6 < String.length (str_of_int (Z.max x y)))%nat ->
     compare_nfe_numbers (VStr a) (VStr b)
       = (Return (VStr (str_of_int (Z.max x y))), []))
    /\ (1000000 <= Z.max x y ->
        (6 < String.length (str_of_int (Z.max x y)))%nat).
Proof.
  intros a b x y Ha Hb. split.
  - intros Hlen.
    rewrite (compare_parsed _ _ _ _ Ha Hb), format_0d_wide; [reflexivity|].
    unfold Config.NFE_DIGITS. lia.
  - intros Hm. unfold str_of_int. rewrite length_app.
    assert ((6 < String.length (digits (Z.abs_N (Z.max x y))))%nat); [|lia].
    apply digits_length. rewrite N2Z.inj_abs_N. change (10 ^ Z.of_nat 6) with 1000000. lia.
Qed.

Lemma compare_nfe_numbers_width_is_minimum_witness :
  compare_nfe_numbers (VStr "1234567") (VStr "42") = (Return (VStr "1234567"), []).
Proof.
  apply (compare_nfe_numbers_width_is_minimum "1234567" "42" 1234567 42);
    [reflexivity | reflexivity | vm_compute; lia].
Defined.

(** C9: the empty string is present but falsy, and the presence test is a
    truth test: with [""] on either side the result is absent, whatever the
    other operand is. *)
Theorem compare_nfe_numbers_empty_string :
  forall x : value,
    compare_nfe_numbers (VStr "") x = (Return VNone, []) /\
    compare_nfe_numbers x (VStr "") = (Return VNone, []).
Proof.
  intros x. split; [now apply compare_falsy_left | now apply compare_falsy_right].
Qed.

(** C10: [compare_nfe_numbers] takes every string [int()] reads, not only
    plain digit strings: white space around the number, a sign in front of
    it and underscores between digits all lead to a formatted string, not to
    absence; when both numbers are negative the result starts with the minus
    sign and the zeros fill the rest of the width, as in ["-00003"] for
    ["-3"] against ["-7"]. *)
Theorem compare_nfe_numbers_beyond_digit_strings :
  (forall (ws1 ws2 : string) (sg : sign) (k : nat) (n : N),
      all_spaces ws1 = true -> all_spaces ws2 = true ->
      int_of_str (ws1 ++ sign_str sg ++ zeros k ++ digits n ++ ws2)
        = Some (sign_val sg * Z.of_N n))
  /\ (forall (g : string) (gs : list string),
         group g = true -> forallb group gs = true ->
         exists z,
           int_of_str (concat_groups g gs) = Some z /\
           int_of_str (join_groups g gs) = Some z)
  /\ int_of_str "1_000" = Some 1000
  /\ (forall (a b : string) (x y : Z),
         int_of_str a = Some x -> int_of_str b = Some y ->
         compare_nfe_numbers (VStr a) (VStr b)
           = (Return (VStr (format_0d 6 (Z.max x y))), []))
  /\ (forall (a b : string) (x y : Z),
         int_of_str a = Some x -> int_of_str b = Some y -> x < 0 -> y < 0 ->
         exists ds,
           ds = digits (Z.abs_N (Z.max x y)) /\
           compare_nfe_numbers (VStr a) (VStr b)
             = (Return (VStr (String "-" (zeros (5 - String.length ds) ++ ds))), []))
  /\ compare_nfe_numbers (VStr " 12 ") (VStr "+1_000")
       = (Return (VStr "001000"), [])
  /\ compare_nfe_numbers (VStr "-3") (VStr "-7") = (Return (VStr "-00003"), []).
Proof.
  split; [intros; now apply int_of_str_decorated|].
  split; [intros; now apply int_of_str_underscores|].
  split; [reflexivity|].
  split; [intros; now apply compare_parsed|].
  split; [|split; reflexivity].
  intros a b x y Ha Hb Hx Hy. eexists; split; [reflexivity|].
  rewrite (compare_parsed _ _ _ _ Ha Hb), format_0d_negative by lia.
  reflexivity.
Qed.

Lemma compare_nfe_numbers_beyond_digit_strings_witness :
  int_of_str "-12" = Some (-12) /\ int_of_str " -0045" = Some (-45) /\
  compare_nfe_numbers (VStr "-12") (VStr " -0045") = (Return (VStr "-00012"), []).
Proof.
  split; [reflexivity|]. split; [reflexivity|].
  destruct (proj1 (proj2 (proj2 (proj2 (proj2 compare_nfe_numbers_beyond_digit_strings))))
              "-12" " -0045" (-12) (-45) eq_refl eq_refl eq_refl eq_refl)
    as (ds & -> & E).
  exact E.
Defined.

End CompareNumbers.

(** ** Traces *)

Section Traces.
Local Open Scope eff_scope.

Lemma requests_of_app (t t' : list event) :
  requests_of (t ++ t') = (requests_of t ++ requests_of t')%list.
Proof.
  induction t as [|[r|m] t IH]; simpl; [reflexivity | now rewrite IH | exact IH].
Qed.

Lemma trace_bind {A B} (m : M event A) (f : A -> M event B) :
  trace (bind m f)
    = (trace m ++ match outcome m with Return a => trace (f a) | Raise _ => [] end)%list.
Proof.
  destruct m as [[a|e] t]; simpl; [|now rewrite app_nil_r].
  now destruct (f a).
Qed.

Lemma outcome_bind {A B} (m : M event A) (f : A -> M event B) :
  outcome (bind m f)
    = match outcome m with Return a => outcome (f a) | Raise e => Raise e end.
Proof.
  destruct m as [[a|e] t]; simpl; [|reflexivity]. now destruct (f a).
Qed.

(** Silence composes. *)
Lemma quiet_bind {A B} (m : M event A) (f : A -> M event B) :
  requests_of (trace m) = [] ->
  (forall a, requests_of (trace (f a)) = []) ->
  requests_of (trace (bind m f)) = [].
Proof.
  intros Hm Hf. rewrite trace_bind, requests_of_app, Hm.
  destruct (outcome m); [apply Hf | reflexivity].
Qed.

Lemma requests_try_except {A} (m : M event A) (hs : list (handler A)) :
  (forall e h, select e hs = Some h -> requests_of (trace (h e)) = []) ->
  requests_of (trace (try_except m hs)) = requests_of (trace m).
Proof.
  intros H. destruct m as [[a|e] t]; simpl; [reflexivity|].
  destruct (select e hs) as [h|] eqn:E; [|reflexivity].
  specialize (H e h E). destruct (h e) as [r t']. simpl in *.
  now rewrite requests_of_app, H, app_nil_r.
Qed.

Lemma requests_get_trace server url hs ps :
  trace (requests_get server url hs ps) = [EvGet (mkRequest "GET" url hs ps)].
Proof.
  unfold requests_get. rewrite trace_bind. simpl.
  now destruct (server _).
Qed.

Lemma get_then_quiet {B} server url hs ps (K : Response -> M event B) :
  (forall r, requests_of (trace (K r)) = []) ->
  requests_of (trace (bind (requests_get server url hs ps) K))
    = [mkRequest "GET" url hs ps].
Proof.
  intros H. rewrite trace_bind, requests_of_app, requests_get_trace. simpl.
  destruct (outcome _); [now rewrite H | reflexivity].
Qed.

End Traces.

Ltac quiet :=
  repeat first
    [ reflexivity
    | apply quiet_bind; [|intros ?]
    | match goal with
      | |- context [if ?b then _ else _] => destruct b
      | |- context [match ?x with _ => _ end] => destruct x
      end ].

(** ** [BlingNFeClient.get_nfe_info] *)

Section GetNfeInfo.
Variable server : Request -> reply.

(** C7: for either category a fetch issues exactly one request: a GET to
    the base URL followed by [/nfe], with the parameters [pagina=1],
    [limite=1] and [tipo] 0 for the inbound category, 1 for the outbound one,
    and the headers [Accept: application/json] and
    [Authorization: Bearer <token>]. *)
Theorem get_nfe_info_single_request :
  forall (token : string) (tipo : NFeTipo),
    requests_of (trace (get_nfe_info server (BlingNFeClient_init token) tipo))
      = [ {| req_method := "GET";
             req_url := Config.API_BASE_URL ++ "/nfe";
             req_headers := [("Accept", "application/json");
                             ("Authorization", "Bearer " ++ token)];
             req_params := [("pagina", 1); ("limite", 1);
                            ("tipo", match tipo with ENTRADA => 0 | SAIDA => 1 end)] |} ].
Proof.
  intros token tipo.
  unfold get_nfe_info. rewrite requests_try_except.
  - rewrite get_then_quiet; [now destruct tipo|].
    intros r. quiet.
  - intros e h. simpl.
    destruct (is_RequestException e); [intros [= <-]; reflexivity|].
    destruct (is_JSONDecodeError e); [intros [= <-]; reflexivity | discriminate].
Qed.




End GetNfeInfo.



(** ** [BlingNFeClient.get_multiple_nfe_info] *)

Section ThreadPool.
Local Open Scope eff_scope.

Lemma nth_error_set_nth (s : slot) : forall (l : list slot) (i : nat),
  (i < List.length l)%nat -> nth_error (set_nth i s l) i = Some s.
Proof.
  induction l as [|x l IH]; intros [|i] H; simpl in *; try lia; [reflexivity|].
  apply IH. lia.
Qed.

Lemma map_set_nth (s : slot) : forall (l : list slot) (i : nat) (x : slot),
  nth_error l i = Some x -> slot_result s = slot_result x ->
  map slot_result (set_nth i s l) = map slot_result l.
Proof.
  induction l as [|y l IH]; intros [|i] x Hx Hs; simpl in *; try discriminate.
  - injection Hx as ->. now rewrite Hs.
  - f_equal. now apply IH with x.
Qed.

Lemma finish_spec (j : nat) (l : list slot) :
  exists l',
    outcome (finish j l) = Return l' /\
    map slot_result l' = map slot_result l /\
    (forall job, nth_error l j = Some (Pending job) ->
                 nth_error l' j = Some (Finished (outcome job))).
Proof.
  unfold finish.
  destruct (nth_error l j) as [[[r t]|r]|] eqn:E.
  - exists (set_nth j (Finished r) l). split; [reflexivity|]. split.
    + now apply map_set_nth with (Pending (r, t)).
    + intros job [= <-]. apply nth_error_set_nth.
      apply nth_error_Some. congruence.
  - exists l. repeat split. intros job [=].
  - exists l. repeat split. intros job [=].
Qed.

Lemma same_length (l l' : list slot) :
  map slot_result l' = map slot_result l -> List.length l' = List.length l.
Proof. intros H. now rewrite <- (length_map slot_result l'), H, length_map. Qed.

Lemma wait_on_spec (i : nat) : forall (ord : list nat) (l : list slot),
  (i < List.length l)%nat ->
  exists l' ord',
    outcome (wait_on i ord l) = Return (l', ord') /\
    map slot_result l' = map slot_result l /\
    exists r, nth_error l' i = Some (Finished r).
Proof.
  induction ord as [|j ord IH]; intros l Hi; simpl;
    destruct (nth_error l i) as [[job|r]|] eqn:E.
  - destruct (finish_spec i l) as (l' & Hf & Hm & Hn).
    exists l', []. rewrite outcome_bind, Hf. repeat split; eauto.
  - exists l, []. repeat split; eauto.
  - apply nth_error_None in E. lia.
  - destruct (finish_spec j l) as (l1 & Hf & Hm & _).
    destruct (IH l1) as (l' & ord' & Hw & Hm' & Hr).
    { now rewrite (same_length _ _ Hm). }
    exists l', ord'. rewrite outcome_bind, Hf. repeat split; [exact Hw | congruence | exact Hr].
  - exists l, (j :: ord). repeat split; eauto.
  - apply nth_error_None in E. lia.
Qed.

Lemma future_result_spec (ex : executor) (i : nat) (r : result value) :
  nth_error (map slot_result (slots ex)) i = Some r ->
  exists ex',
    outcome (future_result ex i) = Return (r, ex') /\
    map slot_result (slots ex') = map slot_result (slots ex).
Proof.
  intros H.
  assert (Hi : (i < List.length (slots ex))%nat).
  { rewrite <- (length_map slot_result). apply nth_error_Some. congruence. }
  destruct (wait_on_spec i (order ex) (slots ex) Hi) as (l' & ord' & Hw & Hm & r' & Hr).
  exists (mkExecutor (max_workers ex) l' ord'). unfold future_result.
  rewrite outcome_bind, Hw, Hr. simpl. split; [|exact Hm].
  rewrite <- Hm, nth_error_map, Hr in H. simpl in H. congruence.
Qed.

Lemma finish_all_returns (n : nat) : forall l : list slot,
  exists l', outcome (finish_all n l) = Return l'.
Proof.
  induction n as [|n IH]; intros l; simpl; [now exists l|].
  destruct (IH l) as (l1 & H1). destruct (finish_spec n l1) as (l2 & H2 & _).
  exists l2. now rewrite outcome_bind, H1.
Qed.

Lemma drain_returns : forall (ord : list nat) (l : list slot),
  exists l', outcome (drain ord l) = Return l'.
Proof.
  induction ord as [|j ord IH]; intros l; simpl; [apply finish_all_returns|].
  destruct (finish_spec j l) as (l1 & H1 & _). destruct (IH l1) as (l2 & H2).
  exists l2. now rewrite outcome_bind, H1.
Qed.

Lemma with_executor_outcome {A} (workers : nat) (ord : list nat)
    (block : executor -> M event (result A * executor)) (r : result A) (ex : executor) :
  outcome (block (mkExecutor workers [] ord)) = Return (r, ex) ->
  outcome (with_executor workers ord block) = r.
Proof.
  intros H. unfold with_executor. rewrite outcome_bind, H.
  destruct (drain_returns (order ex) (slots ex)) as (l' & Hd).
  now rewrite outcome_bind, Hd.
Qed.

Variable server : Request -> reply.

Ltac enter_block :=
  cbn [submit max_workers slots order app List.length];
  match goal with ex := mkExecutor _ _ _ |- _ => fold ex end.

Lemma get_multiple_nfe_info_outcome (self : BlingNFeClient) (ord : list nat) :
  outcome (get_multiple_nfe_info server self ord)
    = match outcome (get_nfe_info server self ENTRADA) with
      | Raise e => Raise e
      | Return numero_entrada =>
          match outcome (get_nfe_info server self SAIDA) with
          | Raise e => Raise e
          | Return numero_saida => Return (numero_entrada, numero_saida)
          end
      end.
Proof.
  unfold get_multiple_nfe_info.
  set (jobE := get_nfe_info server self ENTRADA).
  set (jobS := get_nfe_info server self SAIDA).
  set (ex0 := mkExecutor Config.MAX_WORKERS [Pending jobE; Pending jobS] ord).
  destruct (future_result_spec ex0 0 (outcome jobE) eq_refl) as (ex1 & H1 & M1).
  destruct (outcome jobE) as [a|e] eqn:EE.
  - destruct (future_result_spec ex1 1 (outcome jobS)) as (ex2 & H2 & M2).
    { now rewrite M1. }
    destruct (outcome jobS) as [b|e] eqn:ES;
      apply with_executor_outcome with ex2; enter_block;
      now rewrite outcome_bind, H1, outcome_bind, H2.
  - apply with_executor_outcome with ex1; enter_block.
    now rewrite outcome_bind, H1.
Qed.


End ThreadPool.



(** The order of completion is visible in the trace, not in the result. *)
Example completion_order_shows_in_trace :
  let server := by_tipo (Responded (mkResponse 200 (JSON (envelope (VStr "10")))))
                        (Responded (mkResponse 200 (JSON (envelope (VStr "9"))))) in
  let self := BlingNFeClient_init "token" in
  printed (trace (get_multiple_nfe_info server self [0%nat; 1%nat]))
    = [MsgNumber DescInbound (VStr "10"); MsgNumber DescOutbound (VStr "9")] /\
  printed (trace (get_multiple_nfe_info server self [1%nat; 0%nat]))
    = [MsgNumber DescOutbound (VStr "9"); MsgNumber DescInbound (VStr "10")] /\
  outcome (get_multiple_nfe_info server self [0%nat; 1%nat])
    = outcome (get_multiple_nfe_info server self [1%nat; 0%nat]).
Proof. repeat split. Qed.

(** ** [main] *)

Section MainRun.
Local Open Scope eff_scope.
Variable server : Request -> reply.
Variable py_str : value -> string.

Lemma main_without_code (auth : BlingAuth) (ord : list nat) (code : value) :
  get_authorization_code auth = Return code -> truthy code = false ->
  main server py_str auth ord
    = (Return tt, [EvPrint MsgGettingCode; EvPrint (MsgRunFailed ValueError)]).
Proof.
  intros Hc Ht. unfold main. rewrite Hc. cbn [bind print emit lift app].
  rewrite Ht. reflexivity.
Qed.

Lemma main_without_token (auth : BlingAuth) (ord : list nat) (code token_info token : value) :
  get_authorization_code auth = Return code -> truthy code = true ->
  get_access_token auth code = Return token_info ->
  py_get token_info "access_token" = Return token -> truthy token = false ->
  main server py_str auth ord
    = (Return tt, [EvPrint MsgGettingCode; EvPrint MsgGettingToken;
                   EvPrint (MsgRunFailed ValueError)]).
Proof.
  intros Hc Ht Hi Hg Hf. unfold main. rewrite Hc. cbn [bind print emit lift app].
  rewrite Ht. cbn [negb bind ret print emit lift app]. rewrite Hi.
  cbn [negb bind ret print emit lift app]. rewrite Hg.
  cbn [negb bind ret print emit lift app]. rewrite Hf. reflexivity.
Qed.

Lemma main_without_token_structure (auth : BlingAuth) (ord : list nat)
    (code token_info : value) (e : exn) :
  get_authorization_code auth = Return code -> truthy code = true ->
  get_access_token auth code = Return token_info ->
  py_get token_info "access_token" = Raise e ->
  main server py_str auth ord
    = (Return tt, [EvPrint MsgGettingCode; EvPrint MsgGettingToken;
                   EvPrint (MsgRunFailed e)]).
Proof.
  intros Hc Ht Hi Hg. unfold main. rewrite Hc. cbn [bind print emit lift app].
  rewrite Ht. cbn [negb bind ret print emit lift app]. rewrite Hi.
  cbn [negb bind ret print emit lift app]. rewrite Hg. reflexivity.
Qed.

(** C8: when the authorization code is absent, or the token structure
    has no access token (the key is missing, its value is empty, or there is
    no structure to ask), the run stops with a failure before any fetch: no
    request is issued, and the last line printed is the failure report. *)
Theorem main_auth_failure_before_fetch :
  forall (auth : BlingAuth) (ord : list nat),
    (exists code,
        get_authorization_code auth = Return code /\ truthy code = false)
    \/ (exists code token_info,
           get_authorization_code auth = Return code /\ truthy code = true /\
           get_access_token auth code = Return token_info /\
           forall token, py_get token_info "access_token" = Return token ->
                         truthy token = false) ->
    requests_of (trace (main server py_str auth ord)) = [] /\
    outcome (main server py_str auth ord) = Return tt /\
    exists before e,
      printed (trace (main server py_str auth ord)) = (before ++ [MsgRunFailed e])%list.
Proof.
  intros auth ord [(code & Hc & Ht) | (code & ti & Hc & Ht & Hi & Hf)].
  - rewrite (main_without_code _ _ _ Hc Ht).
    repeat split. now exists [MsgGettingCode], ValueError.
  - destruct (py_get ti "access_token") as [token|e] eqn:Hg.
    + rewrite (main_without_token _ _ _ _ _ Hc Ht Hi Hg (Hf token eq_refl)).
      repeat split. now exists [MsgGettingCode; MsgGettingToken], ValueError.
    + rewrite (main_without_token_structure _ _ _ _ _ Hc Ht Hi Hg).
      repeat split. now exists [MsgGettingCode; MsgGettingToken], e.
Qed.

End MainRun.

Lemma main_auth_failure_before_fetch_witness :
  requests_of
    (trace (main (answer 200 (JSON (envelope (VStr "7")))) (fun _ => "")
              (mkAuth (Return (VStr "code"))
                      (fun _ => Return (VDict [("expires_in", VInt 21600)])))
              [])) = [].
Proof.
  apply main_auth_failure_before_fetch.
  right. exists (VStr "code"), (VDict [("expires_in", VInt 21600)]).
  repeat split. now intros token [= <-].
Defined.

(** With a code and a token the same run does fetch, once per category. *)
Example main_fetches_when_authorized :
  let auth := mkAuth (Return (VStr "code"))
                     (fun _ => Return (VDict [("access_token", VStr "t")])) in
  let run := main (answer 200 (JSON (envelope (VStr "7")))) (fun _ => "") auth [] in
  List.length (requests_of (trace run)) = 2%nat /\
  printed (trace run)
    = [MsgGettingCode; MsgGettingToken;
       MsgNumber DescInbound (VStr "7"); MsgNumber DescOutbound (VStr "7");
       MsgMaximum (VStr "000007")].
Proof. split; reflexivity. Qed.

(** The end-to-end scenarios: both numbers present, one absent, numeric
    order, and a network error on the outbound side. *)
Example end_to_end_scenarios :
  outcome (compare_nfe_numbers (VStr "000123") (VStr "000087")) = Return (VStr "000123") /\
  outcome (compare_nfe_numbers VNone (VStr "5")) = Return VNone /\
  outcome (compare_nfe_numbers (VStr "10") (VStr "9")) = Return (VStr "000010") /\
  printed (trace (main (by_tipo (Responded (mkResponse 200 (JSON (envelope (VStr "42")))))
                                (Failed ConnectionError))
                       (fun _ => "")
                       (mkAuth (Return (VStr "code"))
                               (fun _ => Return (VDict [("access_token", VStr "t")])))
                       [1%nat]))
    = [MsgGettingCode; MsgGettingToken;
       MsgRequestError SAIDA (RequestException ConnectionError);
       MsgNumber DescInbound (VStr "42");
       MsgUndetermined].
Proof. repeat split. Qed.

(* ------------------------------------------------------------------------- *)
(** * Further properties *)

(** ** [NFEProcessor.compare_nfe_numbers], beyond the claims *)

Section CompareMore.

Lemma length_zeros (k : nat) : String.length (zeros k) = k.
Proof. induction k; simpl; auto. Qed.

Lemma all_digits_zeros (k : nat) : all_digits (zeros k) = true.
Proof. induction k; simpl; auto. Qed.

Lemma all_digits_digits (n : N) : all_digits (digits n) = true.
Proof. unfold digits. induction (N.to_uint n); simpl; auto. Qed.

Lemma length_format_0d (w : nat) (z : Z) :
  String.length (format_0d w z) = Nat.max w (String.length (str_of_int z)).
Proof.
  unfold format_0d, str_of_int. rewrite !length_app, length_zeros. lia.
Qed.

(** X1: for two strings the order of the operands does not matter for
    what is returned: the same formatted maximum, or [None], either way. *)
Theorem compare_nfe_numbers_symmetric :
  forall a b : string,
    outcome (compare_nfe_numbers (VStr a) (VStr b))
      = outcome (compare_nfe_numbers (VStr b) (VStr a)).
Proof.
  intros a b.
  destruct a as [|ca a].
  { rewrite compare_falsy_left, compare_falsy_right; reflexivity. }
  destruct b as [|cb b].
  { rewrite compare_falsy_right, compare_falsy_left; reflexivity. }
  unfold compare_nfe_numbers, py_and. cbn [truthy is_empty negb]. unfold py_int.
  destruct (int_of_str (String ca a)) as [x|], (int_of_str (String cb b)) as [y|];
    try reflexivity.
  cbn. now rewrite Z.max_comm.
Qed.

(** X2: for two strings that [int()] reads, the result is at least 6
    characters long, exactly as long as the longer of 6 and the plain
    decimal string of the maximum; when one of the numbers is not negative it
    holds digits only. *)
Theorem compare_nfe_numbers_fixed_width :
  forall (a b : string) (x y : Z),
    int_of_str a = Some x -> int_of_str b = Some y ->
    exists s,
      compare_nfe_numbers (VStr a) (VStr b) = (Return (VStr s), []) /\
      String.length s = Nat.max 6 (String.length (str_of_int (Z.max x y))) /\
      (0 <= x \/ 0 <= y -> all_digits s = true).
Proof.
  intros a b x y Ha Hb. exists (format_0d 6 (Z.max x y)).
  split; [now apply compare_parsed|]. split; [apply length_format_0d|].
  intros H. rewrite format_0d_nonnegative by lia.
  now rewrite all_digits_app, all_digits_zeros, all_digits_digits.
Qed.

Lemma compare_nfe_numbers_fixed_width_witness :
  exists s,
    compare_nfe_numbers (VStr "-5") (VStr "42") = (Return (VStr s), []) /\
    String.length s = 6%nat /\ all_digits s = true.
Proof.
  destruct (compare_nfe_numbers_fixed_width "-5" "42" (-5) 42 eq_refl eq_refl)
    as (s & E & L & D).
  exists s. split; [exact E|]. split; [exact L|]. apply D. right. lia.
Defined.

(** X3: a result can be fed back as an operand: for three strings that
    [int()] reads, comparing the result of the first two with the third gives
    what comparing the first with the result of the last two gives; comparing
    a result with one of its operands, or with itself, gives it back. *)
Theorem compare_nfe_numbers_folds :
  forall (a b c : string) (x y z : Z),
    int_of_str a = Some x -> int_of_str b = Some y -> int_of_str c = Some z ->
    exists ab bc,
      outcome (compare_nfe_numbers (VStr a) (VStr b)) = Return (VStr ab) /\
      outcome (compare_nfe_numbers (VStr b) (VStr c)) = Return (VStr bc) /\
      compare_nfe_numbers (VStr ab) (VStr c) = compare_nfe_numbers (VStr a) (VStr bc) /\
      compare_nfe_numbers (VStr ab) (VStr a) = (Return (VStr ab), []) /\
      compare_nfe_numbers (VStr ab) (VStr ab) = (Return (VStr ab), []).
Proof.
  intros a b c x y z Ha Hb Hc.
  exists (format_0d 6 (Z.max x y)), (format_0d 6 (Z.max y z)).
  pose proof (int_of_str_format_0d 6 (Z.max x y)) as Hab.
  pose proof (int_of_str_format_0d 6 (Z.max y z)) as Hbc.
  rewrite (compare_parsed _ _ _ _ Ha Hb), (compare_parsed _ _ _ _ Hb Hc).
  rewrite (compare_parsed _ _ _ _ Hab Hc), (compare_parsed _ _ _ _ Ha Hbc).
  rewrite (compare_parsed _ _ _ _ Hab Ha), (compare_parsed _ _ _ _ Hab Hab).
  split; [reflexivity|]. split; [reflexivity|].
  split; [now rewrite Z.max_assoc|].
  replace (Z.max (Z.max x y) x) with (Z.max x y) by lia.
  replace (Z.max (Z.max x y) (Z.max x y)) with (Z.max x y) by lia.
  split; reflexivity.
Qed.

Lemma compare_nfe_numbers_folds_witness :
  exists ab bc,
    outcome (compare_nfe_numbers (VStr "7") (VStr "1_000")) = Return (VStr ab) /\
    outcome (compare_nfe_numbers (VStr "1_000") (VStr " 12")) = Return (VStr bc) /\
    compare_nfe_numbers (VStr ab) (VStr " 12") = compare_nfe_numbers (VStr "7") (VStr bc).
Proof.
  destruct (compare_nfe_numbers_folds "7" "1_000" " 12" 7 1000 12 eq_refl eq_refl eq_refl)
    as (ab & bc & H1 & H2 & H3 & _).
  exists ab, bc. split; [exact H1|]. split; [exact H2 | exact H3].
Defined.

(** X4: whatever the two operands are, the only exceptions that leave
    [compare_nfe_numbers] are [TypeError] (an operand [int()] does not take,
    such as a list) and [OverflowError] (an infinite float); a [ValueError]
    never does. *)
Theorem compare_nfe_numbers_escapes :
  forall (a b : value) (e : exn),
    outcome (compare_nfe_numbers a b) = Raise e -> e = TypeError \/ e = OverflowError.
Proof.
  intros a b e. unfold compare_nfe_numbers.
  destruct (negb (truthy (py_and a b))); [discriminate|].
  assert (Hint : forall v e', py_int v = Raise e' ->
            e' = ValueError \/ e' = TypeError \/ e' = OverflowError).
  { intros v e'. destruct v as [| | |f|s| |]; simpl; try discriminate;
      try (intros [= <-]; auto).
    - destruct f; simpl; try discriminate; intros [= <-]; auto.
    - destruct (int_of_str s); [discriminate|]. intros [= <-]; auto. }
  destruct (py_int a) as [x|ea] eqn:Ea.
  - destruct (py_int b) as [y|eb] eqn:Eb; [discriminate|].
    destruct (Hint _ _ Eb) as [->|[->| ->]]; cbn; [discriminate | intros [= <-]; auto ..].
  - destruct (Hint _ _ Ea) as [->|[->| ->]]; cbn; [discriminate | intros [= <-]; auto ..].
Qed.

Lemma compare_nfe_numbers_escapes_witness :
  outcome (compare_nfe_numbers (VList [VStr "7"]) (VStr "7")) = Raise TypeError /\
  (TypeError = TypeError \/ TypeError = OverflowError).
Proof.
  split; [reflexivity|].
  apply (compare_nfe_numbers_escapes (VList [VStr "7"]) (VStr "7") TypeError).
  reflexivity.
Defined.

(** X5: a number that arrives as an integer is compared as it is, with
    another integer or with a string, except the integer 0, which the truth
    test takes for an absent operand; the string ["0"] is a number. *)
Theorem compare_nfe_numbers_json_integers :
  (forall x y : Z, x <> 0 -> y <> 0 ->
      compare_nfe_numbers (VInt x) (VInt y)
        = (Return (VStr (format_0d 6 (Z.max x y))), []))
  /\ (forall (x : Z) (s : string) (y : Z), x <> 0 -> int_of_str s = Some y ->
        compare_nfe_numbers (VInt x) (VStr s)
          = (Return (VStr (format_0d 6 (Z.max x y))), []))
  /\ (forall v : value,
        compare_nfe_numbers (VInt 0) v = (Return VNone, []) /\
        compare_nfe_numbers v (VInt 0) = (Return VNone, []))
  /\ compare_nfe_numbers (VStr "0") (VStr "0") = (Return (VStr "000000"), []).
Proof.
  split; [|split; [|split; [|reflexivity]]].
  - intros x y Hx Hy. unfold compare_nfe_numbers, py_and. cbn [truthy].
    apply Z.eqb_neq in Hx, Hy. rewrite Hx. cbn [negb truthy]. now rewrite Hy.
  - intros x s y Hx Hs. unfold compare_nfe_numbers, py_and. cbn [truthy].
    apply Z.eqb_neq in Hx. rewrite Hx. cbn [negb truthy].
    destruct s as [|c s]; [discriminate Hs|]. cbn [is_empty negb].
    unfold py_int. now rewrite Hs.
  - intros v. split; [now apply compare_falsy_left | now apply compare_falsy_right].
Qed.
Lemma compare_nfe_numbers_json_integers_witness :
  compare_nfe_numbers (VInt 123) (VStr "000087") = (Return (VStr "000123"), []).
Proof.
  now apply (proj1 (proj2 compare_nfe_numbers_json_integers) 123 "000087" 87).
Defined.

End CompareMore.


(** ** [BlingNFeClient.get_nfe_info], beyond the claims *)

Section GetNfeInfoMore.
Variable server : Request -> reply.

Ltac step := cbn [bind emit ret raise lift app status_code content].

Ltac finish_case :=
  cbn;
  first
    [ left; eexists; split; [reflexivity | reflexivity]
    | right; left; reflexivity
    | right; right; left; reflexivity
    | right; right; right; left; eexists; reflexivity
    | right; right; right; right; eexists; split; [reflexivity | split; reflexivity] ].

(** The five ways a call ends. *)
Lemma get_nfe_info_run (self : BlingNFeClient) (tipo : NFeTipo) :
  (exists e, get_nfe_info server self tipo
             = (Return VNone, [EvGet (request_of self tipo); EvPrint (MsgRequestError tipo e)])
             /\ is_RequestException e = true)
  \/ get_nfe_info server self tipo
     = (Return VNone, [EvGet (request_of self tipo);
                       EvPrint (MsgDecodeError tipo JSONDecodeError)])
  \/ get_nfe_info server self tipo
     = (Return VNone, [EvGet (request_of self tipo); EvPrint (MsgNotFound (desc_of tipo))])
  \/ (exists numero, get_nfe_info server self tipo
        = (Return numero, [EvGet (request_of self tipo);
                           EvPrint (MsgNumber (desc_of tipo) numero)]))
  \/ (exists e, get_nfe_info server self tipo = (Raise e, [EvGet (request_of self tipo)])
                /\ is_RequestException e = false /\ is_JSONDecodeError e = false).
Proof.
  unfold get_nfe_info, requests_get, raise_for_status, json, py_get, py_getitem_str,
    py_getitem_0, request_of.
  destruct (server _) as [k|[st c]]; step; [finish_case|].
  destruct ((400 <=? st) && (st <? 600)); step; [finish_case|].
  destruct c as [[|]|v|e]; step; [finish_case | finish_case | |].
  2:{ destruct e; finish_case. }
  destruct v as [| b | z | f | s | l | d]; step; try finish_case.
  destruct (lookup "data" d) as [[| b | z | f | s | l | d']|]; step; try finish_case.
  - destruct b; finish_case.
  - destruct z; finish_case.
  - destruct f; finish_case.
  - destruct s; finish_case.
  - destruct l as [|x rest]; [finish_case|].
    destruct x; finish_case.
  - destruct d'; finish_case.
Qed.





(** X7: a call that returns has printed exactly one line; when it returns
    something else than [None], that line reports the returned number under
    the label of its category. *)
Theorem get_nfe_info_one_status_line :
  forall (self : BlingNFeClient) (tipo : NFeTipo) (v : value),
    outcome (get_nfe_info server self tipo) = Return v ->
    exists m,
      printed (trace (get_nfe_info server self tipo)) = [m] /\
      (v <> VNone ->
       m = MsgNumber (match tipo with ENTRADA => DescInbound | SAIDA => DescOutbound end) v).
Proof.
  intros self tipo v.
  destruct (get_nfe_info_run self tipo)
    as [(e' & -> & _) | [-> | [-> | [(n & ->) | (e' & -> & _)]]]];
    try discriminate; intros [= <-]; eexists; (split; [reflexivity|]);
    try (intros H; now contradiction H).
  intros _. now destruct tipo.
Qed.


End GetNfeInfoMore.


Lemma get_nfe_info_one_status_line_witness :
  exists m,
    printed (trace (get_nfe_info (answer 200 (JSON (envelope (VStr "42"))))
                      (BlingNFeClient_init "token") SAIDA)) = [m] /\
    m = MsgNumber DescOutbound (VStr "42").
Proof.
  destruct (get_nfe_info_one_status_line (answer 200 (JSON (envelope (VStr "42"))))
              (BlingNFeClient_init "token") SAIDA (VStr "42") eq_refl) as (m & E & H).
  exists m. split; [exact E|]. apply H. discriminate.
Defined.



(** ** [BlingNFeClient.get_multiple_nfe_info], beyond the claims *)

Section PoolTraces.
Local Open Scope eff_scope.

Lemma requests_of_perm (t t' : list event) :
  Permutation t t' -> Permutation (requests_of t) (requests_of t').
Proof.
  induction 1 as [| x t t' _ IH | x y t | t t' t'' _ IH1 _ IH2].
  - constructor.
  - destruct x; simpl; [now constructor | exact IH].
  - destruct x, y; simpl; try reflexivity. apply perm_swap.
  - now transitivity (requests_of t').
Qed.

Lemma printed_perm (t t' : list event) :
  Permutation t t' -> Permutation (printed t) (printed t').
Proof.
  induction 1 as [| x t t' _ IH | x y t | t t' t'' _ IH1 _ IH2].
  - constructor.
  - destruct x; simpl; [exact IH | now constructor].
  - destruct x, y; simpl; try reflexivity. apply perm_swap.
  - now transitivity (printed t').
Qed.

Lemma set_nth_trace (r : result value) (t : list event) :
  forall (l : list slot) (j : nat),
    nth_error l j = Some (Pending (r, t)) ->
    Permutation (t ++ pending_trace (set_nth j (Finished r) l)) (pending_trace l).
Proof.
  induction l as [|x l IH]; intros [|j] H; simpl in H; try discriminate.
  - injection H as ->. reflexivity.
  - cbn [set_nth pending_trace flat_map].
    rewrite Permutation_app_swap_app. apply Permutation_app_head.
    now apply IH.
Qed.

Lemma set_nth_length (s : slot) : forall (l : list slot) (j : nat),
  List.length (set_nth j s l) = List.length l.
Proof.
  induction l as [|x l IH]; intros [|j]; simpl; auto.
Qed.

Lemma set_nth_other (s : slot) : forall (l : list slot) (j k : nat),
  k <> j -> nth_error (set_nth j s l) k = nth_error l k.
Proof.
  induction l as [|x l IH]; intros [|j] [|k] H; simpl; auto; try congruence.
Qed.

Lemma keeps_refl (l : list slot) : keeps l [] l.
Proof. repeat split; auto. Qed.

Lemma keeps_trans (l l1 l2 : list slot) (t1 t2 : list event) :
  keeps l t1 l1 -> keeps l1 t2 l2 -> keeps l (t1 ++ t2) l2.
Proof.
  intros (P1 & L1 & N1) (P2 & L2 & N2). repeat split.
  - rewrite <- List.app_assoc, P2. exact P1.
  - congruence.
  - eauto.
Qed.

Lemma finish_keeps (j : nat) (l : list slot) :
  exists l',
    finish j l = (Return l', trace (finish j l)) /\
    keeps l (trace (finish j l)) l' /\
    (forall job, nth_error l' j <> Some (Pending job)).
Proof.
  unfold finish.
  destruct (nth_error l j) as [[[r t]|r]|] eqn:E.
  - exists (set_nth j (Finished r) l). split; [reflexivity|]. split; [repeat split|].
    + now apply set_nth_trace.
    + apply set_nth_length.
    + intros k job H. destruct (Nat.eq_dec k j) as [->|Hk].
      * rewrite nth_error_set_nth in H; [discriminate|].
        apply nth_error_Some. congruence.
      * now rewrite set_nth_other in H.
    + intros job. rewrite nth_error_set_nth; [discriminate|].
      apply nth_error_Some. congruence.
  - exists l. split; [reflexivity|]. split; [apply keeps_refl|]. congruence.
  - exists l. split; [reflexivity|]. split; [apply keeps_refl|]. congruence.
Qed.

Lemma bind_run {A B} (m : M event A) (f : A -> M event B) (a : A) (t : list event) :
  m = (Return a, t) ->
  bind m f = (outcome (f a), (t ++ trace (f a))%list).
Proof. intros ->. simpl. now destruct (f a). Qed.

Lemma wait_on_keeps (i : nat) : forall (ord : list nat) (l : list slot),
  exists l' ord',
    wait_on i ord l = (Return (l', ord'), trace (wait_on i ord l)) /\
    keeps l (trace (wait_on i ord l)) l'.
Proof.
  induction ord as [|j ord IH]; intros l; simpl;
    destruct (nth_error l i) as [[job|r]|] eqn:E;
    try (exists l; eexists; split; [reflexivity | apply keeps_refl]).
  - destruct (finish_keeps i l) as (l' & Hf & Hk & _).
    exists l', []. rewrite (bind_run _ _ _ _ Hf). simpl. rewrite app_nil_r.
    split; [reflexivity | exact Hk].
  - destruct (finish_keeps j l) as (l1 & Hf & Hk & _).
    destruct (IH l1) as (l' & ord' & Hw & Hk').
    exists l', ord'. rewrite (bind_run _ _ _ _ Hf). rewrite Hw at 1. simpl.
    split; [reflexivity|]. now apply keeps_trans with l1.
Qed.

Lemma future_result_keeps (ex : executor) (i : nat) :
  exists r ex',
    future_result ex i = (Return (r, ex'), trace (future_result ex i)) /\
    keeps (slots ex) (trace (future_result ex i)) (slots ex').
Proof.
  unfold future_result.
  destruct (wait_on_keeps i (order ex) (slots ex)) as (l' & ord' & Hw & Hk).
  rewrite (bind_run _ _ _ _ Hw).
  destruct (nth_error l' i) as [[job|r]|]; eexists; eexists; simpl; rewrite app_nil_r;
    (split; [reflexivity | exact Hk]).
Qed.

Lemma finish_all_keeps (n : nat) : forall l : list slot,
  exists l',
    finish_all n l = (Return l', trace (finish_all n l)) /\
    keeps l (trace (finish_all n l)) l' /\
    (forall k job, (k < n)%nat -> nth_error l' k <> Some (Pending job)).
Proof.
  induction n as [|n IH]; intros l; simpl.
  - exists l. split; [reflexivity|]. split; [apply keeps_refl|]. intros; lia.
  - destruct (IH l) as (l1 & H1 & K1 & D1).
    destruct (finish_keeps n l1) as (l2 & H2 & K2 & D2).
    exists l2. rewrite (bind_run _ _ _ _ H1). rewrite H2 at 1. simpl.
    split; [reflexivity|]. split; [now apply keeps_trans with l1|].
    intros k job Hk Hp. destruct (Nat.eq_dec k n) as [->|Hn].
    + now apply (D2 job).
    + apply (D1 k job); [lia|]. now apply K2.
Qed.

Lemma none_pending (l : list slot) :
  (forall k job, nth_error l k <> Some (Pending job)) -> pending_trace l = [].
Proof.
  induction l as [|x l IH]; intros H; [reflexivity|].
  cbn [pending_trace flat_map]. destruct x as [job|r].
  - now contradiction (H 0%nat job).
  - simpl. apply IH. intros k job. apply (H (S k) job).
Qed.

Lemma drain_trace : forall (ord : list nat) (l : list slot),
  exists l',
    drain ord l = (Return l', trace (drain ord l)) /\
    Permutation (trace (drain ord l)) (pending_trace l).
Proof.
  induction ord as [|j ord IH]; intros l; simpl.
  - destruct (finish_all_keeps (List.length l) l) as (l' & H & (P & L & _) & D).
    exists l'. split; [exact H|].
    rewrite none_pending in P; [now rewrite app_nil_r in P|].
    intros k job Hk. apply (D k job); [|exact Hk].
    rewrite <- L. apply nth_error_Some. congruence.
  - destruct (finish_keeps j l) as (l1 & Hf & (P & _) & _).
    destruct (IH l1) as (l' & Hd & Pd).
    exists l'. rewrite (bind_run _ _ _ _ Hf). rewrite Hd at 1. simpl.
    split; [reflexivity|]. now rewrite Pd.
Qed.

Lemma with_executor_trace {A} (workers : nat) (ord : list nat)
    (block : executor -> M event (result A * executor))
    (r : result A) (ex : executor) (t : list event) :
  block (mkExecutor workers [] ord) = (Return (r, ex), t) ->
  Permutation (trace (with_executor workers ord block)) (t ++ pending_trace (slots ex)).
Proof.
  intros H. unfold with_executor. rewrite (bind_run _ _ _ _ H). cbn [trace snd].
  destruct (drain_trace (order ex) (slots ex)) as (l' & Hd & Pd).
  rewrite (bind_run _ _ _ _ Hd). cbn [trace snd lift]. rewrite app_nil_r.
  now apply Permutation_app_head.
Qed.

Variable server : Request -> reply.

Lemma get_multiple_nfe_info_trace (self : BlingNFeClient) (ord : list nat) :
  Permutation (trace (get_multiple_nfe_info server self ord))
    (trace (get_nfe_info server self ENTRADA) ++ trace (get_nfe_info server self SAIDA)).
Proof.
  unfold get_multiple_nfe_info.
  set (jobE := get_nfe_info server self ENTRADA).
  set (jobS := get_nfe_info server self SAIDA).
  set (ex0 := mkExecutor Config.MAX_WORKERS [Pending jobE; Pending jobS] ord).
  assert (P0 : pending_trace (slots ex0) = (trace jobE ++ trace jobS)%list).
  { simpl. now rewrite app_nil_r. }
  rewrite <- P0.
  destruct (future_result_keeps ex0 0) as (r1 & ex1 & H1 & K1).
  destruct r1 as [a|e].
  - destruct (future_result_keeps ex1 1) as (r2 & ex2 & H2 & K2).
    destruct (keeps_trans _ _ _ _ _ K1 K2) as (P & _).
    rewrite <- P.
    apply with_executor_trace
      with (r := match r2 with Return b => Return (a, b) | Raise e => Raise e end).
    cbn [submit max_workers slots order app List.length]. fold ex0.
    rewrite (bind_run _ _ _ _ H1). cbv beta iota.
    rewrite (bind_run _ _ _ _ H2). cbv beta iota.
    destruct r2; simpl; now rewrite app_nil_r.
  - destruct K1 as (P & _). rewrite <- P.
    apply with_executor_trace with (r := Raise e).
    cbn [submit max_workers slots order app List.length]. fold ex0.
    rewrite (bind_run _ _ _ _ H1). simpl. now rewrite app_nil_r.
Qed.


Lemma printed_app (t t' : list event) :
  printed (t ++ t') = (printed t ++ printed t')%list.
Proof.
  induction t as [|[r|m] t IH]; simpl; [reflexivity | exact IH | now rewrite IH].
Qed.

Lemma get_nfe_info_requests (self : BlingNFeClient) (tipo : NFeTipo) :
  requests_of (trace (get_nfe_info server self tipo)) = [request_of self tipo].
Proof.
  destruct (get_nfe_info_run server self tipo)
    as [(e & -> & _) | [-> | [-> | [(n & ->) | (e & -> & _)]]]]; reflexivity.
Qed.

(** X9: whatever the order of completion, and also when a fetch raises,
    [get_multiple_nfe_info] issues exactly one request per category and
    nothing else, and prints exactly the lines of the two fetches: leaving
    the [with] block waits for the sibling call, there is no early exit. *)
Theorem get_multiple_nfe_info_both_fetches :
  forall (self : BlingNFeClient) (ord : list nat),
    Permutation (requests_of (trace (get_multiple_nfe_info server self ord)))
      [request_of self ENTRADA; request_of self SAIDA] /\
    Permutation (printed (trace (get_multiple_nfe_info server self ord)))
      (printed (trace (get_nfe_info server self ENTRADA)) ++
       printed (trace (get_nfe_info server self SAIDA))).
Proof.
  intros self ord. pose proof (get_multiple_nfe_info_trace self ord) as P. split.
  - apply requests_of_perm in P.
    now rewrite requests_of_app, !get_nfe_info_requests in P.
  - apply printed_perm in P. now rewrite printed_app in P.
Qed.

End PoolTraces.

(** ** [main], beyond the claims *)

Section MainMore.
Local Open Scope eff_scope.
Variable server : Request -> reply.
Variable py_str : value -> string.

Lemma compare_quiet (a b : value) :
  requests_of (trace (compare_nfe_numbers a b)) = [].
Proof.
  unfold compare_nfe_numbers.
  destruct (negb (truthy (py_and a b))); [reflexivity|].
  destruct (py_int a) as [x|e]; [destruct (py_int b) as [y|e]|]; simpl;
    try reflexivity; now destruct (is_ValueError e).
Qed.

(** What the run does once it holds a token. *)
Lemma main_authorized (auth : BlingAuth) (ord : list nat) (code token_info token : value) :
  get_authorization_code auth = Return code -> truthy code = true ->
  get_access_token auth code = Return token_info ->
  py_get token_info "access_token" = Return token -> truthy token = true ->
  main server py_str auth ord
    = (Return tt,
       [EvPrint MsgGettingCode; EvPrint MsgGettingToken] ++
       trace (get_multiple_nfe_info server
                (BlingNFeClient_init (interpolate py_str token)) ord) ++
       match outcome (get_multiple_nfe_info server
                        (BlingNFeClient_init (interpolate py_str token)) ord) with
       | Raise e => [EvPrint (MsgRunFailed e)]
       | Return (numero_entrada, numero_saida) =>
           trace (compare_nfe_numbers numero_entrada numero_saida) ++
           match outcome (compare_nfe_numbers numero_entrada numero_saida) with
           | Return v => [EvPrint (if truthy v then MsgMaximum v else MsgUndetermined)]
           | Raise e => [EvPrint (MsgRunFailed e)]
           end
       end)%list.
Proof.
  intros Hc Ht Hi Hg Hk. unfold main. rewrite Hc. cbn [bind print emit lift app].
  rewrite Ht. cbn [negb bind ret print emit lift app]. rewrite Hi.
  cbn [negb bind ret print emit lift app]. rewrite Hg.
  cbn [negb bind ret print emit lift app]. rewrite Hk.
  cbn [negb bind ret print emit lift app].
  destruct (get_multiple_nfe_info server _ ord) as [[[r1 r2]|e] t]; cbn.
  - destruct (compare_nfe_numbers r1 r2) as [[v|e] t']; cbn.
    + destruct (truthy v); cbn; now rewrite ?app_nil_r, <- ?List.app_assoc.
    + now rewrite ?app_nil_r, <- ?List.app_assoc.
  - now rewrite ?app_nil_r.
Qed.

(** Once the object is built, the last clause takes every exception. *)
Lemma main_never_raises (auth : BlingAuth) (ord : list nat) :
  outcome (main server py_str auth ord) = Return tt.
Proof.
  unfold main.
  match goal with
  | |- outcome (try_except ?m _) = _ => destruct m as [[[]|e] t]
  end; reflexivity.
Qed.

(** X10: an exception leaves [main()] exactly when the constructor
    [BlingAuth()], which is called outside the [try], raises it, and then
    nothing has been printed or requested; once the object is built, nothing
    that the authorization methods, the fetches or the comparison raise
    leaves [main()]. *)
Theorem main_call_escapes :
  forall (BlingAuth_new : result BlingAuth) (ord : list nat) (e : exn),
    (outcome (main_call server py_str BlingAuth_new ord) = Raise e
     <-> BlingAuth_new = Raise e)
    /\ (BlingAuth_new = Raise e ->
        trace (main_call server py_str BlingAuth_new ord) = []).
Proof.
  intros [auth|e'] ord e; unfold main_call; split.
  - rewrite outcome_bind. cbn [outcome lift fst]. rewrite main_never_raises.
    split; discriminate.
  - discriminate.
  - split; intros [= ->]; reflexivity.
  - intros _. reflexivity.
Qed.

Lemma main_granted (auth : BlingAuth) (ord : list nat) (token : value) :
  grants auth token ->
  main server py_str auth ord
    = (Return tt,
       [EvPrint MsgGettingCode; EvPrint MsgGettingToken] ++
       trace (get_multiple_nfe_info server
                (BlingNFeClient_init (interpolate py_str token)) ord) ++
       match outcome (get_multiple_nfe_info server
                        (BlingNFeClient_init (interpolate py_str token)) ord) with
       | Raise e => [EvPrint (MsgRunFailed e)]
       | Return (numero_entrada, numero_saida) =>
           trace (compare_nfe_numbers numero_entrada numero_saida) ++
           match outcome (compare_nfe_numbers numero_entrada numero_saida) with
           | Return v => [EvPrint (if truthy v then MsgMaximum v else MsgUndetermined)]
           | Raise e => [EvPrint (MsgRunFailed e)]
           end
       end)%list.
Proof.
  intros (code & token_info & Hc & Ht & Hi & Hg & Hk). now apply main_authorized with code token_info.
Qed.

Lemma printed_last (t1 t2 : list event) (m : message) :
  exists before, printed (t1 ++ t2 ++ [EvPrint m]) = (before ++ [m])%list.
Proof.
  exists (printed t1 ++ printed t2)%list.
  now rewrite !printed_app, List.app_assoc.
Qed.

Lemma printed_last4 (t1 t2 t3 : list event) (m : message) :
  exists before, printed (t1 ++ t2 ++ t3 ++ [EvPrint m]) = (before ++ [m])%list.
Proof.
  exists (printed t1 ++ printed t2 ++ printed t3)%list.
  now rewrite !printed_app, !List.app_assoc.
Qed.

Lemma format_0d_not_empty (z : Z) : is_empty (format_0d 6 z) = false.
Proof.
  pose proof (length_format_0d 6 z) as H.
  destruct (format_0d 6 z); [cbn [String.length] in H; lia | reflexivity].
Qed.

(** X11: when the authorization hands over a token and both fetches
    return strings that [int()] reads, the last line [main] prints is the
    maximum of the two numbers, zero padded to width 6, for every order of
    completion. *)
Theorem main_reports_maximum :
  forall (auth : BlingAuth) (ord : list nat) (tok a b : string) (x y : Z),
    grants auth (VStr tok) ->
    outcome (get_nfe_info server (BlingNFeClient_init tok) ENTRADA) = Return (VStr a) ->
    outcome (get_nfe_info server (BlingNFeClient_init tok) SAIDA) = Return (VStr b) ->
    int_of_str a = Some x -> int_of_str b = Some y ->
    exists before,
      printed (trace (main server py_str auth ord))
        = (before ++ [MsgMaximum (VStr (format_0d 6 (Z.max x y)))])%list.
Proof.
  intros auth ord tok a b x y Hg Ha Hb Hx Hy.
  rewrite (main_granted _ _ _ Hg). cbn [interpolate trace snd].
  rewrite get_multiple_nfe_info_outcome, Ha, Hb, (compare_parsed _ _ _ _ Hx Hy).
  cbn [outcome trace fst snd truthy]. rewrite format_0d_not_empty. cbn [negb].
  apply printed_last4.
Qed.

(** X12: when both fetches return and one of the two results is [None]
    (or another falsy value), the last line [main] prints says that the
    maximum is undetermined. *)
Theorem main_undetermined :
  forall (auth : BlingAuth) (ord : list nat) (token r1 r2 : value),
    grants auth token ->
    outcome (get_nfe_info server (BlingNFeClient_init (interpolate py_str token)) ENTRADA)
      = Return r1 ->
    outcome (get_nfe_info server (BlingNFeClient_init (interpolate py_str token)) SAIDA)
      = Return r2 ->
    truthy r1 = false \/ truthy r2 = false ->
    exists before,
      printed (trace (main server py_str auth ord)) = (before ++ [MsgUndetermined])%list.
Proof.
  intros auth ord token r1 r2 Hg H1 H2 Hf.
  rewrite (main_granted _ _ _ Hg). cbn [trace snd].
  rewrite get_multiple_nfe_info_outcome, H1, H2.
  assert (E : compare_nfe_numbers r1 r2 = (Return VNone, [])).
  { destruct Hf; [now apply compare_falsy_left | now apply compare_falsy_right]. }
  rewrite E. cbn [outcome trace fst snd truthy].
  apply printed_last4.
Qed.

(** X13: when a fetch raises, the inbound one or, the inbound one having
    returned, the outbound one, the last line [main] prints reports that
    exception as the failure of the run. *)
Theorem main_fetch_raises :
  forall (auth : BlingAuth) (ord : list nat) (token : value) (e : exn),
    grants auth token ->
    outcome (get_nfe_info server (BlingNFeClient_init (interpolate py_str token)) ENTRADA)
      = Raise e
    \/ (exists r1,
          outcome (get_nfe_info server (BlingNFeClient_init (interpolate py_str token)) ENTRADA)
            = Return r1 /\
          outcome (get_nfe_info server (BlingNFeClient_init (interpolate py_str token)) SAIDA)
            = Raise e) ->
    exists before,
      printed (trace (main server py_str auth ord)) = (before ++ [MsgRunFailed e])%list.
Proof.
  intros auth ord token e Hg H.
  rewrite (main_granted _ _ _ Hg). cbn [trace snd].
  rewrite get_multiple_nfe_info_outcome.
  destruct H as [-> | (r1 & -> & ->)]; apply printed_last.
Qed.

(** X14: when the authorization hands over the string token [tok], the
    requests of the whole run are the two fetches, one per category, both
    with [Authorization: Bearer tok], whatever the fetches come back with. *)
Theorem main_requests :
  forall (auth : BlingAuth) (ord : list nat) (tok : string),
    grants auth (VStr tok) ->
    Permutation (requests_of (trace (main server py_str auth ord)))
      [ {| req_method := "GET";
           req_url := "https://api.bling.com.br/Api/v3/nfe";
           req_headers := [("Accept", "application/json");
                           ("Authorization", "Bearer " ++ tok)];
           req_params := [("pagina", 1); ("limite", 1); ("tipo", 0)] |};
        {| req_method := "GET";
           req_url := "https://api.bling.com.br/Api/v3/nfe";
           req_headers := [("Accept", "application/json");
                           ("Authorization", "Bearer " ++ tok)];
           req_params := [("pagina", 1); ("limite", 1); ("tipo", 1)] |} ].
Proof.
  intros auth ord tok Hg.
  rewrite (main_granted _ _ _ Hg). cbn [interpolate trace snd].
  rewrite !requests_of_app. cbn [requests_of app].
  match goal with
  | |- Permutation (_ ++ ?rest) _ => assert (R : rest = []); [|rewrite R, app_nil_r]
  end.
  { destruct (outcome (get_multiple_nfe_info _ _ _)) as [[r1 r2]|e]; [|reflexivity].
    rewrite requests_of_app, compare_quiet.
    now destruct (outcome (compare_nfe_numbers r1 r2)). }
  apply (get_multiple_nfe_info_both_fetches server (BlingNFeClient_init tok) ord).
Qed.

(** X15: when a method of the authorization module raises, the run
    issues no request and its last printed line reports that exception. *)
Theorem main_auth_raises :
  forall (auth : BlingAuth) (ord : list nat) (e : exn),
    get_authorization_code auth = Raise e
    \/ (exists code,
          get_authorization_code auth = Return code /\ truthy code = true /\
          get_access_token auth code = Raise e) ->
    requests_of (trace (main server py_str auth ord)) = [] /\
    exists before,
      printed (trace (main server py_str auth ord)) = (before ++ [MsgRunFailed e])%list.
Proof.
  intros auth ord e [H | (code & Hc & Ht & Hi)]; unfold main.
  - rewrite H. split; [reflexivity|]. now exists [MsgGettingCode].
  - rewrite Hc. cbn [bind print emit lift app]. rewrite Ht.
    cbn [negb bind ret print emit lift app]. rewrite Hi.
    split; [reflexivity|]. now exists [MsgGettingCode; MsgGettingToken].
Qed.

End MainMore.

Lemma main_reports_maximum_witness :
  exists before,
    printed (trace (main (by_tipo (Responded (mkResponse 200 (JSON (envelope (VStr "10")))))
                                  (Responded (mkResponse 200 (JSON (envelope (VStr "9"))))))
                         (fun _ => "")
                         (mkAuth (Return (VStr "code"))
                                 (fun _ => Return (VDict [("access_token", VStr "t")])))
                         [1%nat; 0%nat]))
      = (before ++ [MsgMaximum (VStr "000010")])%list.
Proof.
  apply (main_reports_maximum _ _ _ _ "t" "10" "9" 10 9); try reflexivity.
  exists (VStr "code"), (VDict [("access_token", VStr "t")]). repeat split.
Defined.

Lemma main_undetermined_witness :
  exists before,
    printed (trace (main (by_tipo (Responded (mkResponse 200 (JSON (envelope (VStr "42")))))
                                  (Failed ConnectionError))
                         (fun _ => "")
                         (mkAuth (Return (VStr "code"))
                                 (fun _ => Return (VDict [("access_token", VStr "t")])))
                         []))
      = (before ++ [MsgUndetermined])%list.
Proof.
  apply (main_undetermined _ _ _ _ (VStr "t") (VStr "42") VNone); try reflexivity.
  - exists (VStr "code"), (VDict [("access_token", VStr "t")]). repeat split.
  - now right.
Defined.

Lemma main_fetch_raises_witness :
  exists before,
    printed (trace (main (by_tipo (Responded (mkResponse 200 (JSON (envelope (VStr "42")))))
                                  (Responded (mkResponse 200 (JSON (VList [])))))
                         (fun _ => "")
                         (mkAuth (Return (VStr "code"))
                                 (fun _ => Return (VDict [("access_token", VStr "t")])))
                         []))
      = (before ++ [MsgRunFailed AttributeError])%list.
Proof.
  apply (main_fetch_raises _ _ _ _ (VStr "t")).
  - exists (VStr "code"), (VDict [("access_token", VStr "t")]). repeat split.
  - right. exists (VStr "42"). split; reflexivity.
Defined.

Lemma main_requests_witness :
  List.length
    (requests_of
       (trace (main (always (Failed Timeout)) (fun _ => "")
                 (mkAuth (Return (VStr "code"))
                         (fun _ => Return (VDict [("access_token", VStr "t")])))
                 [1%nat]))) = 2%nat.
Proof.
  apply (Permutation_length
           (main_requests (always (Failed Timeout)) (fun _ => "")
              (mkAuth (Return (VStr "code"))
                      (fun _ => Return (VDict [("access_token", VStr "t")])))
              [1%nat] "t"
              (ex_intro _ (VStr "code")
                 (ex_intro _ (VDict [("access_token", VStr "t")])
                    (conj eq_refl (conj eq_refl (conj eq_refl (conj eq_refl eq_refl)))))))).
Defined.

Lemma main_auth_raises_witness :
  requests_of
    (trace (main (answer 200 (JSON (envelope (VStr "7")))) (fun _ => "")
              (mkAuth (Return (VStr "code")) (fun _ => Raise (OtherException "OSError")))
              [])) = [].
Proof.
  apply (main_auth_raises _ _ _ _ (OtherException "OSError")).
  right. exists (VStr "code"). repeat split.
Defined.

(** ** What a reported maximum stands for *)

Section Soundness.
Local Open Scope eff_scope.
Variable server : Request -> reply.
Variable py_str : value -> string.

(** X16: whatever the operands, a value [compare_nfe_numbers] returns
    is either [None] or the zero padded maximum of the two integers that
    [int()] made of two truthy operands. *)
Theorem compare_nfe_numbers_result_origin :
  forall (a b v : value),
    outcome (compare_nfe_numbers a b) = Return v ->
    v = VNone \/
    (exists x y,
        truthy a = true /\ truthy b = true /\
        py_int a = Return x /\ py_int b = Return y /\
        v = VStr (format_0d 6 (Z.max x y))).
Proof.
  intros a b v. unfold compare_nfe_numbers, py_and.
  destruct (truthy a) eqn:Ta.
  - destruct (truthy b) eqn:Tb; cbn [negb]; [|intros [= <-]; now left].
    destruct (py_int a) as [x|e] eqn:Ea.
    + destruct (py_int b) as [y|e] eqn:Eb.
      * intros [= <-]. right. now exists x, y.
      * cbn. destruct (is_ValueError e); cbn; [intros [= <-]; now left | discriminate].
    + cbn. destruct (is_ValueError e); cbn; [intros [= <-]; now left | discriminate].
  - rewrite Ta. cbn [negb]. intros [= <-]. now left.
Qed.

Lemma compare_prints (a b : value) (m : message) :
  In m (printed (trace (compare_nfe_numbers a b))) -> exists e, m = MsgCompareError e.
Proof.
  unfold compare_nfe_numbers.
  destruct (negb (truthy (py_and a b))); [intros []|].
  destruct (py_int a) as [x|e]; [destruct (py_int b) as [y|e]|]; cbn;
    try (intros []; fail);
    (destruct (is_ValueError e); cbn; [intros [<-|[]]; eauto | intros []]).
Qed.

Lemma get_nfe_info_prints (self : BlingNFeClient) (tipo : NFeTipo) (v : value) :
  ~ In (MsgMaximum v) (printed (trace (get_nfe_info server self tipo))).
Proof.
  destruct (get_nfe_info_run server self tipo)
    as [(e & -> & _) | [-> | [-> | [(n & ->) | (e & -> & _)]]]];
    cbn; intuition discriminate.
Qed.

Lemma main_not_granted (auth : BlingAuth) (ord : list nat) :
  (forall token, ~ grants auth token) ->
  exists e, printed (trace (main server py_str auth ord)) = [MsgGettingCode; MsgRunFailed e]
         \/ printed (trace (main server py_str auth ord))
            = [MsgGettingCode; MsgGettingToken; MsgRunFailed e].
Proof.
  intros H. unfold main.
  destruct (get_authorization_code auth) as [code|e] eqn:Hc; [|exists e; now left].
  cbn [bind print emit lift app].
  destruct (truthy code) eqn:Ht; [|exists ValueError; now left].
  cbn [negb bind ret print emit lift app].
  destruct (get_access_token auth code) as [ti|e] eqn:Hi; [|exists e; now right].
  cbn [negb bind ret print emit lift app].
  destruct (py_get ti "access_token") as [token|e] eqn:Hg; [|exists e; now right].
  cbn [negb bind ret print emit lift app].
  destruct (truthy token) eqn:Hk; [|exists ValueError; now right].
  exfalso. apply (H token). now exists code, ti.
Qed.

Lemma grants_or_not (auth : BlingAuth) :
  (exists token, grants auth token) \/ (forall token, ~ grants auth token).
Proof.
  unfold grants.
  destruct (get_authorization_code auth) as [code|e] eqn:Hc;
    [|right; intros token (c & ti & H & _); discriminate].
  destruct (truthy code) eqn:Ht;
    [|right; intros token (c & ti & [= <-] & H & _); congruence].
  destruct (get_access_token auth code) as [ti|e] eqn:Hi;
    [|right; intros token (c & ti & [= <-] & _ & H & _); congruence].
  destruct (py_get ti "access_token") as [token|e] eqn:Hg;
    [|right; intros token (c & ti' & [= <-] & _ & H & H' & _); congruence].
  destruct (truthy token) eqn:Hk.
  - left. now exists token, code, ti.
  - right. intros token' (c & ti' & [= <-] & _ & H & H' & H''). congruence.
Qed.

(** X17: [main] prints a maximum only when the authorization handed over
    a token, both fetches returned, and [int()] took both results; the
    printed value is then the zero padded maximum of the two integers. *)
Theorem main_maximum_sound :
  forall (auth : BlingAuth) (ord : list nat) (v : value),
    In (MsgMaximum v) (printed (trace (main server py_str auth ord))) ->
    exists token r1 r2 x y,
      grants auth token /\
      outcome (get_nfe_info server (BlingNFeClient_init (interpolate py_str token)) ENTRADA)
        = Return r1 /\
      outcome (get_nfe_info server (BlingNFeClient_init (interpolate py_str token)) SAIDA)
        = Return r2 /\
      py_int r1 = Return x /\ py_int r2 = Return y /\
      v = VStr (format_0d 6 (Z.max x y)).
Proof.
  intros auth ord v Hin.
  destruct (grants_or_not auth) as [(token & Hg) | Hn].
  2:{ destruct (main_not_granted auth ord Hn) as (e & [E|E]); rewrite E in Hin;
      cbn in Hin; intuition discriminate. }
  rewrite (main_granted _ _ _ _ _ Hg) in Hin. cbn [trace snd] in Hin.
  rewrite !printed_app in Hin. cbn [printed app] in Hin.
  destruct Hin as [H|[H|Hin]]; [discriminate H | discriminate H |].
  apply in_app_or in Hin as [Hin|Hin].
  { exfalso.
    destruct (get_multiple_nfe_info_both_fetches server
                (BlingNFeClient_init (interpolate py_str token)) ord) as (_ & P).
    apply (Permutation_in _ P) in Hin. apply in_app_or in Hin as [Hin|Hin];
      now apply get_nfe_info_prints in Hin. }
  rewrite get_multiple_nfe_info_outcome in Hin.
  destruct (outcome (get_nfe_info server _ ENTRADA)) as [r1|e] eqn:E1;
    [|cbn in Hin; intuition discriminate].
  destruct (outcome (get_nfe_info server _ SAIDA)) as [r2|e] eqn:E2;
    [|cbn in Hin; intuition discriminate].
  rewrite printed_app in Hin. apply in_app_or in Hin as [Hin|Hin].
  { apply compare_prints in Hin as (e & He). discriminate He. }
  destruct (outcome (compare_nfe_numbers r1 r2)) as [w|e] eqn:Ec;
    [|cbn in Hin; intuition discriminate].
  destruct (truthy w) eqn:Tw; cbn in Hin; [|intuition discriminate].
  destruct Hin as [[= ->]|[]].
  destruct (compare_nfe_numbers_result_origin _ _ _ Ec) as [-> | (x & y & _ & _ & Hx & Hy & ->)];
    [discriminate Tw|].
  now exists token, r1, r2, x, y.
Qed.
End Soundness.

Lemma compare_nfe_numbers_result_origin_witness :
  VStr "000012" = VNone \/
  (exists x y,
      truthy (VStr "5") = true /\ truthy (VInt 12) = true /\
      py_int (VStr "5") = Return x /\ py_int (VInt 12) = Return y /\
      VStr "000012" = VStr (format_0d 6 (Z.max x y))).
Proof.
  apply (compare_nfe_numbers_result_origin (VStr "5") (VInt 12) (VStr "000012")).
  reflexivity.
Defined.

Lemma main_maximum_sound_witness :
  exists token r1 r2 x y,
    grants (mkAuth (Return (VStr "code"))
                   (fun _ => Return (VDict [("access_token", VStr "t")]))) token /\
    outcome (get_nfe_info (answer 200 (JSON (envelope (VStr "7"))))
               (BlingNFeClient_init (interpolate (fun _ => "") token)) ENTRADA) = Return r1 /\
    outcome (get_nfe_info (answer 200 (JSON (envelope (VStr "7"))))
               (BlingNFeClient_init (interpolate (fun _ => "") token)) SAIDA) = Return r2 /\
    py_int r1 = Return x /\ py_int r2 = Return y /\
    VStr "000007" = VStr (format_0d 6 (Z.max x y)).
Proof.
  apply (main_maximum_sound (answer 200 (JSON (envelope (VStr "7")))) (fun _ => "")
           (mkAuth (Return (VStr "code"))
                   (fun _ => Return (VDict [("access_token", VStr "t")])))
           [] (VStr "000007")).
  vm_compute. do 4 right. left. reflexivity.
Defined.

Lemma main_call_escapes_witness :
  main_call (answer 200 (JSON (envelope (VStr "7")))) (fun _ => "")
    (Raise (OtherException "FileNotFoundError")) []
  = (Raise (OtherException "FileNotFoundError"), []).
Proof.
  pose proof (main_call_escapes (answer 200 (JSON (envelope (VStr "7")))) (fun _ => "")
                (Raise (OtherException "FileNotFoundError")) []
                (OtherException "FileNotFoundError")) as [[_ Ho] Ht].
  specialize (Ho eq_refl). specialize (Ht eq_refl).
  destruct (main_call _ _ _ _) as [r t]. simpl in Ho, Ht. now subst.
Defined.
